(** * documents2graph: entities, co-occurrence relationships and graph writes

    A shallow embedding of [examples/documents2graph_pipeline.py]: the
    [Entity] and [Relationship] values, [BuildGraph.extract_entities] and
    [BuildGraph.run], [entity_normalizer], the statements [Neo4jHandler]
    sends to the graph store and the write loop of [main]. *)

From Stdlib Require Import ZArith.
From stdpp Require Import gmap strings list sorting.

Local Open Scope Z_scope.
#[local] Set Warnings "-clear-no-such-hyp".

(** ** Python values used by the pipeline *)

Module Py.

(** What a call leaves behind: a value, or the exception it raised.
    [IndexError] is what indexing a list raises; [OutOfRangeSpan] is the
    error the specification names for a span outside its text, which no
    line of the pipeline raises. *)
Inductive exn := IndexError | OutOfRangeSpan.

Inductive outcome (A : Type) :=
| Returned (a : A)
| Raised (e : exn).
Arguments Returned {A} a.
Arguments Raised {A} e.

#[global] Instance outcome_ret : MRet outcome := fun A a => Returned a.
#[global] Instance outcome_bind : MBind outcome := fun A B f m =>
  match m with
  | Returned a => f a
  | Raised e => Raised e
  end.

(** [len(s)] as a Python int. *)
Definition len {A} (l : list A) : Z := Z.of_nat (length l).
Definition str_len (s : string) : Z := Z.of_nat (String.length s).

(** A slice bound against a sequence of [n] items, as CPython's
    [PySlice_AdjustIndices] does for step 1: a negative bound counts from
    the end, and the result is brought into [0, n]. *)
Definition adjust_index (i n : Z) : Z :=
  if i <? 0 then (if i + n <? 0 then 0 else i + n)
  else if n <=? i then n else i.

(** [s[start:stop]] on a [str]; it never raises for int bounds. *)
Definition str_slice (s : string) (start stop : Z) : string :=
  let n := str_len s in
  let lo := adjust_index start n in
  let hi := adjust_index stop n in
  if lo <? hi then String.substring (Z.to_nat lo) (Z.to_nat (hi - lo)) s
  else EmptyString.

(** [range(n)]: empty when [n <= 0]. *)
Definition range (n : Z) : list Z := Z.of_nat <$> seq 0 (Z.to_nat n).

(** [l[i]] on a list: a negative index counts from the end, and an index
    outside the list raises [IndexError]. *)
Definition getitem {A} (l : list A) (i : Z) : outcome A :=
  let j := if i <? 0 then i + len l else i in
  if (j <? 0) || (len l <=? j) then Raised IndexError
  else match l !! Z.to_nat j with
       | Some x => Returned x
       | None => Raised IndexError
       end.

(** [sorted(l, key=key)] for an int key: the stable ascending sort. The
    list is built from its right end; an item is put in front of the first
    item, among those that followed it in the input, whose key is not
    smaller than its own, so items with equal keys keep their input order. *)
Section Sorted.
Context {A : Type} (key : A -> Z).

Fixpoint insert_by (x : A) (l : list A) : list A :=
  match l with
  | [] => [x]
  | y :: l' => if key x <=? key y then x :: y :: l' else y :: insert_by x l'
  end.

Fixpoint sorted (l : list A) : list A :=
  match l with
  | [] => []
  | x :: l' => insert_by x (sorted l')
  end.
End Sorted.

End Py.

(** ** Data model *)

(** The NER collaborator's annotation: [entity], [start], [end]. *)
Record NamedEntityAnnotation := {
  entity : string;
  start : Z;
  end_ : Z
}.

(** The part of a haystack [Document] the pipeline reads:
    [doc.id], [doc.content] and [doc.meta["named_entities"]]. *)
Record Document := {
  id : string;
  content : string;
  named_entities : list NamedEntityAnnotation
}.

Record Entity := {
  e_type : string;
  surface_string : string
}.

Record Relationship := {
  ent1 : Entity;
  ent2 : Entity;
  relationship : string
}.

(** [Entity.__eq__] and [Entity.__hash__] compare and hash the pair
    [(e_type, surface_string)]. *)
Definition entity_key (e : Entity) : string * string :=
  (e_type e, surface_string e).

Definition entity_of_key (k : string * string) : Entity :=
  {| e_type := k.1; surface_string := k.2 |}.

#[global] Instance Entity_eq_dec : EqDecision Entity.
Proof. solve_decision. Defined.

#[global] Instance Entity_countable : Countable Entity.
Proof.
  apply (inj_countable' entity_key entity_of_key).
  by intros [].
Defined.

#[global] Instance Relationship_eq_dec : EqDecision Relationship.
Proof. solve_decision. Defined.

#[global] Instance NamedEntityAnnotation_eq_dec : EqDecision NamedEntityAnnotation.
Proof. solve_decision. Defined.

(** ** BuildGraph *)

Module BuildGraph.

Definition extract_entities (entity0 : NamedEntityAnnotation) (doc_text : string)
  : Py.outcome Entity :=
  let e_type0 := entity entity0 in
  let start0 := start entity0 in
  let end0 := end_ entity0 in
  let surface_string0 := Py.str_slice doc_text start0 end0 in
  mret {| e_type := e_type0; surface_string := surface_string0 |}.

(** Lines 55-56 of [run]: the document's annotations, sorted by start
    offset, each turned into an [Entity]. *)
Definition doc_entities (doc : Document) : Py.outcome (list Entity) :=
  let entities_sorted_by_occurrence := Py.sorted start (named_entities doc) in
  mapM (fun entity0 => extract_entities entity0 (content doc))
       entities_sorted_by_occurrence.

(** Line 57 of [run]. *)
Definition consecutive_pairs (entities : list Entity)
  : Py.outcome (list (Entity * Entity)) :=
  mapM (fun i =>
          a ← Py.getitem entities i;
          b ← Py.getitem entities (i + 1);
          mret (a, b))
       (Py.range (Py.len entities - 1)).

(** Lines 57-58 of [run]: the relationships of one document. *)
Definition doc_relationships (entities : list Entity) (doc_id : string)
  : Py.outcome (list Relationship) :=
  pairs ← consecutive_pairs entities;
  mret (map (fun p : Entity * Entity =>
               {| ent1 := p.1; ent2 := p.2; relationship := doc_id |}) pairs).

(** The body of the [for doc in documents] loop, on the two accumulators. *)
Fixpoint run_loop (documents : list Document)
    (all_entities : list Entity) (all_relationships : list Relationship)
  : Py.outcome (list Entity * list Relationship) :=
  match documents with
  | [] => mret (all_entities, all_relationships)
  | doc :: documents' =>
      entities ← doc_entities doc;
      relationships ← doc_relationships entities (id doc);
      run_loop documents' (all_entities ++ entities)
               (all_relationships ++ relationships)
  end.

(** [run]: the pair stands for the dict with the keys ["entities"] and
    ["relationships"]. *)
Definition run (documents : list Document)
  : Py.outcome (list Entity * list Relationship) :=
  run_loop documents [] [].

End BuildGraph.

(** ** entity_normalizer *)

(** A line written by [print]: [Duplicated entity: {entity}], with the
    entity it shows. The line holds nothing else. *)
Inductive stdout_line :=
| Duplicated_entity (e : Entity).

#[global] Instance stdout_line_eq_dec : EqDecision stdout_line.
Proof. solve_decision. Defined.

Definition line_entity (l : stdout_line) : Entity :=
  match l with Duplicated_entity e => e end.

(** The [for entity in entities] loop, on the set [seen] and the lines
    printed so far. *)
Fixpoint entity_normalizer_loop (entities : list Entity)
    (seen : gset Entity) (stdout : list stdout_line)
  : gset Entity * list stdout_line :=
  match entities with
  | [] => (seen, stdout)
  | entity0 :: entities' =>
      if negb (bool_decide (entity0 ∈ seen))
      then entity_normalizer_loop entities' ({[entity0]} ∪ seen) stdout
      else entity_normalizer_loop entities' seen
             (stdout ++ [Duplicated_entity entity0])
  end.

(** [entity_normalizer]: the returned set and what it printed. *)
Definition entity_normalizer (entities : list Entity)
  : gset Entity * list stdout_line :=
  entity_normalizer_loop entities ∅ [].

(** ** Neo4jHandler and the graph store *)

Module Neo4j.

(** A dict with [str] keys and values, in insertion order. *)
Definition properties := list (string * string).

Definition keys (p : properties) : list string := map fst p.

(** [', '.join(parts)] *)
Fixpoint join (parts : list string) : string :=
  match parts with
  | [] => EmptyString
  | [x] => x
  | x :: rest => x +:+ ", " +:+ join rest
  end.

(** The text [_create_node] builds. *)
Definition create_node_query (label : string) (props : properties) : string :=
  "CREATE (n:" +:+ label +:+ " { "
    +:+ join (map (fun k => k +:+ ": $" +:+ k) (keys props)) +:+ " })".

(** The text [_create_relationship] builds. *)
Definition create_relationship_query (label1 : string) (properties1 : properties)
    (label2 : string) (properties2 : properties)
    (rel_type : string) (rel_properties : properties) : string :=
  ("MATCH (a:" +:+ label1 +:+ " { "
     +:+ join (map (fun k => k +:+ ": $" +:+ "a_" +:+ k) (keys properties1)) +:+ " }), ")
  +:+ ("(b:" +:+ label2 +:+ " { "
     +:+ join (map (fun k => k +:+ ": $" +:+ "b_" +:+ k) (keys properties2)) +:+ " }) ")
  +:+ ("CREATE (a)-[r:" +:+ rel_type +:+ " { "
     +:+ join (map (fun k => k +:+ ": $" +:+ "r_" +:+ k) (keys rel_properties))
     +:+ " }]->(b)").

(** The two statements the handler sends, with their parameters bound:
    [CREATE (n:label {props})] and
    [MATCH (a:label1 {props1}), (b:label2 {props2})
     CREATE (a)-[r:rel_type {rel_props}]->(b)]. *)
Inductive statement :=
| CREATE_node (label : string) (props : properties)
| MATCH_CREATE_rel (label1 : string) (props1 : properties)
                   (label2 : string) (props2 : properties)
                   (rel_type : string) (rel_props : properties).

Definition query (s : statement) : string :=
  match s with
  | CREATE_node label props => create_node_query label props
  | MATCH_CREATE_rel l1 p1 l2 p2 t rp => create_relationship_query l1 p1 l2 p2 t rp
  end.

Definition is_node_write (s : statement) : bool :=
  match s with CREATE_node _ _ => true | _ => false end.

Definition is_edge_write (s : statement) : bool :=
  match s with MATCH_CREATE_rel _ _ _ _ _ _ => true | _ => false end.

(** The store: nodes with an identity of their own, and directed edges
    between node identities. *)
Record node := {
  node_id : nat;
  node_label : string;
  node_props : properties
}.

Record edge := {
  edge_source : nat;
  edge_target : nat;
  edge_type : string;
  edge_props : properties
}.

Record graph := {
  nodes : list node;
  edges : list edge
}.

Definition empty : graph := {| nodes := []; edges := [] |}.

Fixpoint prop_lookup (k : string) (p : properties) : option string :=
  match p with
  | [] => None
  | kv :: p' => if bool_decide (kv.1 = k) then Some kv.2 else prop_lookup k p'
  end.

(** A node pattern [(x:label {props})] matches a node that carries the
    label and every property of the pattern. *)
Definition matches (label : string) (props : properties) (n : node) : bool :=
  bool_decide (node_label n = label)
  && forallb (fun kv => bool_decide (prop_lookup kv.1 (node_props n) = Some kv.2)) props.

Definition matching (label : string) (props : properties) (ns : list node)
  : list node :=
  filter (fun n => matches label props n = true) ns.

(** Running one statement in its own write transaction. [CREATE] makes a
    new node whatever the store holds; [MATCH ... CREATE] makes one edge
    for every pair of matching nodes. *)
Definition tx_run (g : graph) (s : statement) : graph :=
  match s with
  | CREATE_node label props =>
      {| nodes := nodes g ++ [ {| node_id := length (nodes g);
                                  node_label := label; node_props := props |} ];
         edges := edges g |}
  | MATCH_CREATE_rel l1 p1 l2 p2 t rp =>
      {| nodes := nodes g;
         edges := edges g ++
           (a ← matching l1 p1 (nodes g); b ← matching l2 p2 (nodes g);
            [ {| edge_source := node_id a; edge_target := node_id b;
                 edge_type := t; edge_props := rp |} ]) |}
  end.

(** The handler: the store it is connected to, and the statements it has
    run, oldest first. *)
Record handler := {
  store : graph;
  log : list statement
}.

Definition connect (g : graph) : handler := {| store := g; log := [] |}.

Definition execute_write (h : handler) (s : statement) : handler :=
  {| store := tx_run (store h) s; log := log h ++ [s] |}.

Definition create_node (h : handler) (label : string) (props : properties) : handler :=
  execute_write h (CREATE_node label props).

Definition create_relationship (h : handler)
    (label1 : string) (properties1 : properties)
    (label2 : string) (properties2 : properties)
    (rel_type : string) (rel_properties : properties) : handler :=
  execute_write h
    (MATCH_CREATE_rel label1 properties1 label2 properties2 rel_type rel_properties).

Definition node_count (h : handler) : nat := length (nodes (store h)).
Definition edge_count (h : handler) : nat := length (edges (store h)).

End Neo4j.

(** ** main *)

(** The first write loop of [main]: one [create_node] per item. *)
Definition persist_nodes (entities : list Entity) (neo4j : Neo4j.handler)
  : Neo4j.handler :=
  foldl (fun h entity0 =>
           Neo4j.create_node h (e_type entity0)
             [("surface_string", surface_string entity0)])
        neo4j entities.

(** The second write loop of [main]: one [create_relationship] per item. *)
Definition persist_relationships (relationships : list Relationship)
    (neo4j : Neo4j.handler) : Neo4j.handler :=
  foldl (fun h r =>
           Neo4j.create_relationship h
             (e_type (ent1 r)) [("surface_string", surface_string (ent1 r))]
             (e_type (ent2 r)) [("surface_string", surface_string (ent2 r))]
             "RELATED"
             [("relationship", relationship r)])
        neo4j relationships.

(** What a run of [main] leaves: the set it bound to
    [entities_normalised], the lines printed, and the handler. *)
Record main_result := {
  entities_normalised : gset Entity;
  stdout : list stdout_line;
  neo4j : Neo4j.handler
}.

(** [main], from the annotated documents that reach [entity_builder], against
    the store [db]. The node loop iterates [result["entity_builder"]["entities"]]. *)
Definition main (documents : list Document) (db : Neo4j.graph)
  : Py.outcome main_result :=
  result ← BuildGraph.run documents;
  let '(normalised, out) := entity_normalizer result.1 in
  let h0 := Neo4j.connect db in
  let h1 := persist_nodes result.1 h0 in
  let h2 := persist_relationships result.2 h1 in
  mret {| entities_normalised := normalised; stdout := out; neo4j := h2 |}.


(** ** The parameters of a relationship write *)

Module Params.

(** [{f'{prefix}{k}': v for k, v in props.items()}]: a later item replaces
    an earlier one under the same name. *)
Definition prefixed (prefix : string) (props : Neo4j.properties)
  : gmap string string :=
  foldl (fun m kv => <[prefix +:+ kv.1 := kv.2]> m) ∅ props.

(** [{**d1, **d2}]: the items of [d2] win. *)
Definition merge (d1 d2 : gmap string string) : gmap string string := d2 ∪ d1.

(** Line 92 of [_create_relationship]: the parameters sent with the query. *)
Definition create_relationship_params
    (properties1 properties2 rel_properties : Neo4j.properties)
  : gmap string string :=
  merge (merge (prefixed "a_" properties1) (prefixed "b_" properties2))
        (prefixed "r_" rel_properties).

End Params.

(** ** read_documents *)

Module ReadDocuments.

(** What [read_documents] puts into a [Document]: the content and the two
    entries of [meta]. The document id is made by the library. *)
Record document := {
  content : string;
  category : string;
  title : string
}.

(** [str.isspace] on one character, for the code points below 256: tab to
    carriage return, the four separators 28 to 31, space, next line (133)
    and no-break space (160). *)
Definition is_space (c : Ascii.ascii) : bool :=
  let n := Ascii.nat_of_ascii c in
  ((9 <=? n)%nat && (n <=? 13)%nat) || ((28 <=? n)%nat && (n <=? 31)%nat)
  || (n =? 32)%nat || (n =? 133)%nat || (n =? 160)%nat.

Fixpoint lstrip (s : string) : string :=
  match s with
  | EmptyString => EmptyString
  | String c s' => if is_space c then lstrip s' else s
  end.

Fixpoint rstrip (s : string) : string :=
  match s with
  | EmptyString => EmptyString
  | String c s' =>
      match rstrip s' with
      | EmptyString => if is_space c then EmptyString else String c EmptyString
      | r => String c r
      end
  end.

(** [s.strip()] *)
Definition strip (s : string) : string := rstrip (lstrip s).

(** The body of the [for row in reader] loop. *)
Definition read_row (row : list string) : Py.outcome document :=
  c ← Py.getitem row 0;
  let category0 := strip c in
  t ← Py.getitem row 2;
  let title0 := strip t in
  x ← Py.getitem row 3;
  let text := strip x in
  mret {| content := text; category := category0; title := title0 |}.

(** [read_documents], from the rows the tab-separated reader yields for the
    file: [next(reader, None)] drops the first row when there is one. *)
Definition read_documents (rows : list (list string))
  : Py.outcome (list document) :=
  mapM read_row (drop 1 rows).

End ReadDocuments.

(** ** dataclasses/message_formats.py *)

Module Fmt.

(** The exceptions the two converters can end with. *)
Inductive exn :=
| ValueError (message : string)
| KeyError
| AttributeError.

Inductive outcome (A : Type) :=
| Returned (a : A)
| Raised (e : exn).
Arguments Returned {A} a.
Arguments Raised {A} e.

#[global] Instance outcome_ret : MRet outcome := fun A a => Returned a.
#[global] Instance outcome_bind : MBind outcome := fun A B f m =>
  match m with
  | Returned a => f a
  | Raised e => Raised e
  end.

(** The members of [ChatRole] the converters name; [OTHER] stands for any
    member they do not name. *)
Inductive ChatRole := USER | ASSISTANT | SYSTEM | TOOL | OTHER.

#[global] Instance ChatRole_eq_dec : EqDecision ChatRole.
Proof. solve_decision. Defined.

(** [s.startswith(prefix)] *)
Fixpoint startswith (s prefix : string) : bool :=
  match prefix, s with
  | EmptyString, _ => true
  | String p prefix', String c s' => bool_decide (c = p) && startswith s' prefix'
  | String _ _, EmptyString => false
  end.

(** [sep.join(parts)] *)
Fixpoint join (sep : string) (parts : list string) : string :=
  match parts with
  | [] => EmptyString
  | [x] => x
  | x :: rest => x +:+ sep +:+ join sep rest
  end.

Definition newline : string := String (Ascii.ascii_of_nat 10) EmptyString.

Section Converters.

(** What the converters take from outside this file: the bytes of a stream
    with [base64.b64encode(...).decode("utf-8")] on them, the ids and the
    arguments of tool calls, and the [ChatMessage] class with the
    attributes and the method read here. *)
Context {bytes call_id arguments ChatMessage : Type}.
Context (b64encode : bytes -> string).

(** [ByteStream] of byte_stream.py, with [to_base64]. *)
Record ByteStream := {
  data : bytes;
  mime_type : string
}.

Definition to_base64 (self : ByteStream) : string := b64encode (data self).

Record ToolCall := {
  tool_call_id : call_id;
  tool_name : string;
  tool_arguments : arguments
}.

(** A part of [message._content]: text, media, or something else, which
    both converters pass over. *)
Inductive content_part :=
| TextContent (text : string)
| MediaContent (data : ByteStream)
| OtherContent.

Context (role : ChatMessage -> ChatRole).
Context (role_value : ChatRole -> string).
Context (is_from : ChatMessage -> ChatRole -> bool).
Context (_content : ChatMessage -> list content_part).
Context (tool_calls : ChatMessage -> list ToolCall).
Context (tool_call_result_origin : ChatMessage -> option ToolCall).

(** The values the OpenAI format is made of. *)
#[local] Set Warnings "-register-all".
Inductive value :=
| Str (s : string)
| Id (i : call_id)
| Args (a : arguments)
| List (items : list value)
| Dict (items : list (string * value)).

(** The [for part in message._content] loop of [message_to_openai_format]:
    [inl] is the early [return], [inr] the list built. *)
Fixpoint openai_loop (message : ChatMessage) (parts : list content_part)
    (content : list value) : value + list value :=
  match parts with
  | [] => inr content
  | part :: parts' =>
      match part with
      | TextContent text =>
          if bool_decide (length (_content message) = 1%nat)
          then inl (Dict [("role", Str (role_value (role message)));
                          ("content", Str text)])
          else openai_loop message parts'
                 (content ++ [Dict [("type", Str "text"); ("text", Str text)]])
      | MediaContent d =>
          openai_loop message parts'
            (content ++
               [Dict [("type", Str (if startswith (mime_type d) "image/"
                                    then "image" else "file"));
                      ("media_type", Str (mime_type d));
                      ("data", Str (to_base64 d))]])
      | OtherContent => openai_loop message parts' content
      end
  end.

Definition message_to_openai_format (message : ChatMessage) : outcome value :=
  let result := [("role", Str (role_value (role message)))] in
  match openai_loop message (_content message) [] with
  | inl early => mret early
  | inr content =>
      let result :=
        if bool_decide (content = []) then result
        else result ++ [("content", List content)] in
      let result :=
        if is_from message ASSISTANT
           && negb (bool_decide (length (tool_calls message) = 0%nat))
        then result ++
               [("tool_calls",
                 List (map (fun call =>
                              Dict [("id", Id (tool_call_id call));
                                    ("type", Str "function");
                                    ("function",
                                     Dict [("name", Str (tool_name call));
                                           ("arguments", Args (tool_arguments call))])])
                           (tool_calls message)))]
        else result in
      if is_from message TOOL
      then match tool_call_result_origin message with
           | Some origin =>
               mret (Dict (result ++ [("tool_call_id", Id (tool_call_id origin))]))
           | None => Raised AttributeError
           end
      else mret (Dict result)
  end.

(** The [for part in message._content] loop of
    [message_to_anthropic_format]. *)
Fixpoint anthropic_loop (parts_in : list content_part) (parts : list string)
  : outcome (list string) :=
  match parts_in with
  | [] => mret parts
  | part :: parts_in' =>
      match part with
      | TextContent text => anthropic_loop parts_in' (parts ++ [text])
      | MediaContent d =>
          if startswith (mime_type d) "image/"
          then anthropic_loop parts_in'
                 (parts ++ ["<image>" +:+ to_base64 d +:+ "</image>"])
          else Raised (ValueError
                 ("Anthropic format does not support media type: "
                    +:+ mime_type d))
      | OtherContent => anthropic_loop parts_in' parts
      end
  end.

Definition role_map (r : ChatRole) : outcome string :=
  match r with
  | USER => mret "Human"
  | ASSISTANT => mret "Assistant"
  | SYSTEM => mret "System"
  | _ => Raised KeyError
  end.

Definition message_to_anthropic_format (message : ChatMessage) : outcome string :=
  if is_from message TOOL
  then Raised (ValueError "Anthropic format does not support tool messages")
  else
    parts ← anthropic_loop (_content message) [];
    let content := join newline parts in
    name ← role_map (role message);
    mret (name +:+ ": " +:+ content).

End Converters.

End Fmt.

(** * Closed forms, specified behaviour and sample data *)

(** The order [sorted] sorts by. *)
Definition key_le {A} (key : A -> Z) (a b : A) : Prop := key a <= key b.

(** The value [extract_entities] returns. *)
Definition entity_at (doc_text : string) (a : NamedEntityAnnotation) : Entity :=
  {| e_type := entity a;
     surface_string := Py.str_slice doc_text (start a) (end_ a) |}.

(** The entities of one document, in occurrence order. *)
Definition entities_of (doc : Document) : list Entity :=
  entity_at (content doc) <$> Py.sorted start (named_entities doc).

(** Each item paired with its successor. *)
Definition adjacent {A} (l : list A) : list (A * A) := zip l (tail l).

Definition relationships_of (doc : Document) : list Relationship :=
  (fun p : Entity * Entity =>
     {| ent1 := p.1; ent2 := p.2; relationship := id doc |})
    <$> adjacent (entities_of doc).

(** The Span Extractor as the specification words it: the slice for offsets
    inside the text, an [OutOfRangeSpan] error otherwise. *)
Definition span_extractor_spec (a : NamedEntityAnnotation) (text : string)
  : Py.outcome Entity :=
  if (0 <=? start a) && (start a <=? end_ a) && (end_ a <=? Py.str_len text)
  then Py.Returned
         {| e_type := entity a;
            surface_string :=
              String.substring (Z.to_nat (start a))
                               (Z.to_nat (end_ a - start a)) text |}
  else Py.Raised Py.OutOfRangeSpan.

(** How many times [e] stands in [l]. *)
Definition occurrences (e : Entity) (l : list Entity) : nat :=
  length (filter (fun x => x = e) l).

(** The loop's printed entities, without the accumulators. *)
Fixpoint duplicates (seen : gset Entity) (entities : list Entity) : list Entity :=
  match entities with
  | [] => []
  | e :: entities' =>
      if bool_decide (e ∈ seen) then e :: duplicates seen entities'
      else duplicates ({[e]} ∪ seen) entities'
  end.

(** Position [i] of [l] repeats an earlier position. *)
Definition later_occurrence (l : list Entity) (i : nat) : option Entity :=
  match l !! i with
  | Some e => if bool_decide (e ∈ take i l) then Some e else None
  | None => None
  end.

(** The items of [l] that repeat an earlier item, in the order of [l]. *)
Definition later_occurrences (l : list Entity) : list Entity :=
  omap (later_occurrence l) (seq 0 (length l)).

(** The first occurrence of every item, in order. *)
Fixpoint first_occurrences_from (seen l : list Entity) : list Entity :=
  match l with
  | [] => []
  | e :: l' =>
      if bool_decide (e ∈ seen) then first_occurrences_from seen l'
      else e :: first_occurrences_from (e :: seen) l'
  end.

Definition first_occurrences (l : list Entity) : list Entity :=
  first_occurrences_from [] l.

(** The duplicate report as the specification words it: one record per
    duplicated entity, in the order in which the second occurrences come,
    with the entity's total number of occurrences. *)
Definition duplicate_report_spec (entities : list Entity) : list (Entity * nat) :=
  (fun e => (e, occurrences e entities))
    <$> first_occurrences (later_occurrences entities).

(** The statement the node loop sends for an entity, and the one the edge
    loop sends for a relationship. *)
Definition node_statement (e : Entity) : Neo4j.statement :=
  Neo4j.CREATE_node (e_type e) [("surface_string", surface_string e)].

Definition edge_statement (r : Relationship) : Neo4j.statement :=
  Neo4j.MATCH_CREATE_rel
    (e_type (ent1 r)) [("surface_string", surface_string (ent1 r))]
    (e_type (ent2 r)) [("surface_string", surface_string (ent2 r))]
    "RELATED" [("relationship", relationship r)].

(** The edges one relationship adds to a store with the nodes [ns]: one per
    pair of nodes matching its two ends. *)
Definition edges_for (ns : list Neo4j.node) (r : Relationship) : nat :=
  (length (Neo4j.matching (e_type (ent1 r))
                          [("surface_string", surface_string (ent1 r))] ns)
   * length (Neo4j.matching (e_type (ent2 r))
                            [("surface_string", surface_string (ent2 r))] ns))%nat.

Definition edges_added (ns : list Neo4j.node) (rels : list Relationship) : nat :=
  sum_list (edges_for ns <$> rels).

(** The scenario document, and a second one that mentions Apple again. *)
Definition D1 : Document :=
  {| id := "D1"; content := "Apple hired John in Paris";
     named_entities := [ {| entity := "ORG"; start := 0; end_ := 5 |};
                         {| entity := "PERSON"; start := 12; end_ := 16 |};
                         {| entity := "LOC"; start := 20; end_ := 25 |} ] |}.

Definition D2 : Document :=
  {| id := "D2"; content := "Apple rose";
     named_entities := [ {| entity := "ORG"; start := 0; end_ := 5 |} ] |}.

Definition Apple : Entity := {| e_type := "ORG"; surface_string := "Apple" |}.
Definition John : Entity := {| e_type := "PERSON"; surface_string := "John" |}.
Definition Paris : Entity := {| e_type := "LOC"; surface_string := "Paris" |}.

(** Strings of white space only, and strings that begin or end with white
    space. *)
Fixpoint all_space (s : string) : bool :=
  match s with
  | EmptyString => true
  | String c s' => ReadDocuments.is_space c && all_space s'
  end.

Definition starts_with_space (s : string) : bool :=
  match s with
  | EmptyString => false
  | String c _ => ReadDocuments.is_space c
  end.

Fixpoint ends_with_space (s : string) : bool :=
  match s with
  | EmptyString => false
  | String c EmptyString => ReadDocuments.is_space c
  | String _ s' => ends_with_space s'
  end.

(** [field] is [raw] without the white space at its two ends. *)
Definition trimmed_from (raw field : string) : Prop :=
  starts_with_space field = false /\
  ends_with_space field = false /\
  exists pre suf : string,
    raw = pre +:+ field +:+ suf /\ all_space pre = true /\ all_space suf = true.

(** What the two converters make of one part of a message. *)
Definition supported_by_anthropic {bytes : Type}
    (part : @Fmt.content_part bytes) : bool :=
  match part with
  | Fmt.MediaContent d => Fmt.startswith (Fmt.mime_type d) "image/"
  | _ => true
  end.

Definition anthropic_text {bytes : Type} (b64encode : bytes -> string)
    (part : @Fmt.content_part bytes) : option string :=
  match part with
  | Fmt.TextContent text => Some text
  | Fmt.MediaContent d => Some ("<image>" +:+ Fmt.to_base64 b64encode d +:+ "</image>")
  | Fmt.OtherContent => None
  end.

Definition openai_item {bytes call_id arguments : Type} (b64encode : bytes -> string)
    (part : @Fmt.content_part bytes) : option (@Fmt.value call_id arguments) :=
  match part with
  | Fmt.TextContent text =>
      Some (Fmt.Dict [("type", Fmt.Str "text"); ("text", Fmt.Str text)])
  | Fmt.MediaContent d =>
      Some (Fmt.Dict
              [("type", Fmt.Str (if Fmt.startswith (Fmt.mime_type d) "image/"
                                 then "image" else "file"));
               ("media_type", Fmt.Str (Fmt.mime_type d));
               ("data", Fmt.Str (Fmt.to_base64 b64encode d))])
  | Fmt.OtherContent => None
  end.

(** [d.get(key)] on the dict of a [Fmt.Dict]. *)
Fixpoint dict_get {call_id arguments : Type} (key : string)
    (items : list (string * @Fmt.value call_id arguments))
  : option (@Fmt.value call_id arguments) :=
  match items with
  | [] => None
  | kv :: items' => if bool_decide (kv.1 = key) then Some kv.2 else dict_get key items'
  end.

(** * Facts about the Python layer *)

Section OutcomeFacts.
Context {A B : Type}.

Lemma mapM_Returned (f : A -> Py.outcome B) (g : A -> B) (l : list A) :
  (forall x, x ∈ l -> f x = Py.Returned (g x)) ->
  mapM f l = Py.Returned (map g l).
Proof.
  induction l as [|x l IH]; intros Hf; simpl; [done|].
  rewrite Hf by left. simpl.
  rewrite IH; [done|]. intros y Hy. apply Hf. by right.
Qed.

Lemma getitem_lookup (l : list A) (i : nat) (x : A) :
  l !! i = Some x -> Py.getitem l (Z.of_nat i) = Py.Returned x.
Proof.
  intros Hx. pose proof (lookup_lt_Some _ _ _ Hx) as Hlt.
  unfold Py.getitem, Py.len.
  destruct (Z.ltb_spec (Z.of_nat i) 0); [lia|].
  destruct (Z.ltb_spec (Z.of_nat i) 0); [lia|].
  destruct (Z.leb_spec (Z.of_nat (length l)) (Z.of_nat i)); [lia|].
  simpl. by rewrite Nat2Z.id, Hx.
Qed.

End OutcomeFacts.

Section SortedFacts.
Context {A : Type} (key : A -> Z).

Lemma insert_by_perm (x : A) (l : list A) : Py.insert_by key x l ≡ₚ x :: l.
Proof.
  induction l as [|y l IH]; simpl; [done|].
  destruct (key x <=? key y); [done|].
  rewrite IH. apply Permutation_swap.
Qed.

Lemma sorted_perm (l : list A) : Py.sorted key l ≡ₚ l.
Proof.
  induction l as [|x l IH]; simpl; [done|].
  by rewrite insert_by_perm, IH.
Qed.

Lemma sorted_length (l : list A) : length (Py.sorted key l) = length l.
Proof. apply Permutation_length, sorted_perm. Qed.

Lemma insert_by_sorted (x : A) (l : list A) :
  StronglySorted (key_le key) l -> StronglySorted (key_le key) (Py.insert_by key x l).
Proof.
  induction 1 as [|y l Hl IH Hy]; simpl.
  - repeat constructor.
  - destruct (Z.leb_spec (key x) (key y)) as [Hxy|Hxy].
    + constructor; [by constructor|].
      constructor; [done|].
      eapply Forall_impl; [exact Hy|]. unfold key_le. intros z Hz. simpl in Hz. lia.
    + constructor; [done|].
      rewrite insert_by_perm. constructor; [unfold key_le; lia | done].
Qed.

Lemma sorted_sorted (l : list A) : StronglySorted (key_le key) (Py.sorted key l).
Proof.
  induction l as [|x l IH]; simpl; [constructor|].
  by apply insert_by_sorted.
Qed.

(** Stability: the items with one key come out in their input order. *)
Lemma insert_by_filter (k : Z) (x : A) (l : list A) :
  filter (fun a => key a = k) (Py.insert_by key x l)
  = filter (fun a => key a = k) (x :: l).
Proof.
  induction l as [|y l IH]; simpl; [done|].
  destruct (Z.leb_spec (key x) (key y)) as [Hxy|Hxy]; [done|].
  rewrite !filter_cons in *.
  repeat case_decide; try lia; congruence.
Qed.

Lemma sorted_stable (k : Z) (l : list A) :
  filter (fun a => key a = k) (Py.sorted key l) = filter (fun a => key a = k) l.
Proof.
  induction l as [|x l IH]; simpl; [done|].
  rewrite insert_by_filter, !filter_cons, IH. done.
Qed.

(** In a sorted list, an earlier item has the smaller or equal key. *)
Lemma sorted_lookup_le (l : list A) (i j : nat) (a b : A) :
  (i < j)%nat ->
  Py.sorted key l !! i = Some a -> Py.sorted key l !! j = Some b ->
  key a <= key b.
Proof.
  intros Hij Ha Hb.
  pose proof (sorted_sorted l) as Hs.
  revert i j Hij Ha Hb. induction Hs as [|y l' Hl IH Hy]; intros i j Hij Ha Hb.
  - by rewrite lookup_nil in Ha.
  - destruct j as [|j]; [lia|]. destruct i as [|i]; simpl in *.
    + injection Ha as <-. rewrite Forall_forall in Hy.
      apply Hy. by eapply list_elem_of_lookup_2.
    + eapply IH; [|done..]. lia.
Qed.

End SortedFacts.

(** * BuildGraph.run in closed form *)

Lemma extract_entities_Returned (a : NamedEntityAnnotation) (doc_text : string) :
  BuildGraph.extract_entities a doc_text = Py.Returned (entity_at doc_text a).
Proof. reflexivity. Qed.

Lemma doc_entities_Returned (doc : Document) :
  BuildGraph.doc_entities doc = Py.Returned (entities_of doc).
Proof.
  unfold BuildGraph.doc_entities, entities_of.
  apply mapM_Returned. intros a _. apply extract_entities_Returned.
Qed.

Lemma length_adjacent {A} (l : list A) : length (adjacent l) = (length l - 1)%nat.
Proof.
  unfold adjacent. rewrite length_zip.
  destruct l as [|x l]; cbn [tail length]; lia.
Qed.

Lemma lookup_adjacent {A} (l : list A) (i : nat) (a b : A) :
  adjacent l !! i = Some (a, b) <-> l !! i = Some a /\ l !! S i = Some b.
Proof.
  unfold adjacent. split.
  - intros (x & y & [= -> ->] & Hx & Hy)%lookup_zip_with_Some.
    by rewrite lookup_tail in Hy.
  - intros [Ha Hb]. apply lookup_zip_with_Some.
    exists a, b. by rewrite lookup_tail.
Qed.

(** The index loop of line 57 reads every pair of neighbours and never
    leaves the list. *)
Lemma consecutive_pairs_from (pre l : list Entity) :
  mapM (fun i =>
          a ← Py.getitem (pre ++ l) i;
          b ← Py.getitem (pre ++ l) (i + 1);
          mret (a, b))
       (Z.of_nat <$> seq (length pre) (length l - 1))
  = Py.Returned (adjacent l).
Proof.
  revert pre. induction l as [|x l IH]; intros pre; [done|].
  destruct l as [|y l]; [done|].
  replace (length (x :: y :: l) - 1)%nat with (S (length (y :: l) - 1)) by (simpl; lia).
  cbn [seq fmap list_fmap mapM].
  rewrite (getitem_lookup _ _ x)
    by (rewrite lookup_app_r by lia; by rewrite Nat.sub_diag).
  replace (Z.of_nat (length pre) + 1) with (Z.of_nat (S (length pre))) by lia.
  rewrite (getitem_lookup _ _ y)
    by (rewrite lookup_app_r by lia;
        by replace (S (length pre) - length pre)%nat with 1%nat by lia).
  cbn [mbind Py.outcome_bind mret Py.outcome_ret].
  specialize (IH (pre ++ [x])).
  rewrite <- app_assoc, length_app in IH. cbn [app length] in IH.
  replace (length pre + 1)%nat with (S (length pre)) in IH by lia.
  change (list_fmap nat Z Z.of_nat) with (fmap (M:=list) Z.of_nat).
  cbn [length] in IH |- *. rewrite IH. reflexivity.
Qed.

Lemma consecutive_pairs_Returned (entities : list Entity) :
  BuildGraph.consecutive_pairs entities = Py.Returned (adjacent entities).
Proof.
  unfold BuildGraph.consecutive_pairs, Py.range, Py.len.
  replace (Z.to_nat (Z.of_nat (length entities) - 1))
    with (length entities - 1)%nat by lia.
  apply (consecutive_pairs_from [] entities).
Qed.

Lemma doc_relationships_Returned (doc : Document) :
  BuildGraph.doc_relationships (entities_of doc) (id doc)
  = Py.Returned (relationships_of doc).
Proof.
  unfold BuildGraph.doc_relationships.
  rewrite consecutive_pairs_Returned. reflexivity.
Qed.

Lemma run_loop_Returned (documents : list Document)
    (all_entities : list Entity) (all_relationships : list Relationship) :
  BuildGraph.run_loop documents all_entities all_relationships
  = Py.Returned (all_entities ++ mjoin (entities_of <$> documents),
                 all_relationships ++ mjoin (relationships_of <$> documents)).
Proof.
  revert all_entities all_relationships.
  induction documents as [|doc documents IH]; intros E R; simpl.
  - by rewrite !app_nil_r.
  - rewrite doc_entities_Returned. simpl.
    rewrite doc_relationships_Returned. simpl.
    rewrite IH. by rewrite <- !app_assoc.
Qed.

Lemma run_Returned (documents : list Document) :
  BuildGraph.run documents
  = Py.Returned (mjoin (entities_of <$> documents),
                 mjoin (relationships_of <$> documents)).
Proof. apply run_loop_Returned. Qed.

(** * The Relationship Builder and the Graph Assembler *)

Lemma doc_relationships_adjacent (entities : list Entity) (doc_id : string) :
  BuildGraph.doc_relationships entities doc_id
  = Py.Returned ((fun p : Entity * Entity =>
                    {| ent1 := p.1; ent2 := p.2; relationship := doc_id |})
                   <$> adjacent entities).
Proof.
  unfold BuildGraph.doc_relationships.
  by rewrite consecutive_pairs_Returned.
Qed.

(** C1. For every document, the entity list built from its annotations has
    one entity per annotation, and the Relationship Builder run on that
    list returns (it does not raise) exactly max(0, n - 1) relationships,
    n being the number of entities; for n <= 1 the list is empty. *)
Theorem C1_relationship_count (doc : Document) :
  exists (entities : list Entity) (relationships : list Relationship),
    BuildGraph.doc_entities doc = Py.Returned entities /\
    length entities = length (named_entities doc) /\
    BuildGraph.doc_relationships entities (id doc) = Py.Returned relationships /\
    Z.of_nat (length relationships) = Z.max 0 (Z.of_nat (length entities) - 1) /\
    ((length entities <= 1)%nat -> relationships = []).
Proof.
  exists (entities_of doc), (relationships_of doc).
  assert (Hlen : length (relationships_of doc) = (length (entities_of doc) - 1)%nat).
  { unfold relationships_of. by rewrite length_fmap, length_adjacent. }
  split; [apply doc_entities_Returned|].
  split; [unfold entities_of; by rewrite length_fmap, sorted_length|].
  split; [apply doc_relationships_Returned|].
  split; [lia|].
  intros Hle. apply length_zero_iff_nil. lia.
Qed.

(** C7. A run of the Graph Assembler returns, and every relationship it
    returns joins two annotations of one input document that stand at
    positions i and i + 1 of that document's annotations sorted by start
    offset (a permutation of the annotations, ascending), with the entities
    extracted from those two annotations as its ends and the document's id
    as its context. *)
Theorem C7_relationships_are_consecutive (documents : list Document) :
  exists (all_entities : list Entity) (all_relationships : list Relationship),
    BuildGraph.run documents = Py.Returned (all_entities, all_relationships) /\
    forall r, r ∈ all_relationships ->
      exists (doc : Document) (occurrence : list NamedEntityAnnotation)
             (i : nat) (a b : NamedEntityAnnotation),
        doc ∈ documents /\
        occurrence ≡ₚ named_entities doc /\
        StronglySorted (fun x y => start x <= start y) occurrence /\
        occurrence !! i = Some a /\
        occurrence !! S i = Some b /\
        start a <= start b /\
        BuildGraph.extract_entities a (content doc) = Py.Returned (ent1 r) /\
        BuildGraph.extract_entities b (content doc) = Py.Returned (ent2 r) /\
        relationship r = id doc.
Proof.
  eexists _, _. split; [apply run_Returned|].
  intros r Hr.
  apply list_elem_of_join in Hr as (rels & Hr & Hrels).
  apply list_elem_of_fmap in Hrels as (doc & -> & Hdoc).
  unfold relationships_of in Hr.
  apply list_elem_of_fmap in Hr as ([e1 e2] & -> & Hp).
  apply list_elem_of_lookup in Hp as [i Hi].
  apply lookup_adjacent in Hi as [H1 H2].
  unfold entities_of in H1, H2.
  rewrite list_lookup_fmap in H1, H2.
  destruct (Py.sorted start (named_entities doc) !! i) as [a|] eqn:Ha; [|done].
  destruct (Py.sorted start (named_entities doc) !! S i) as [b|] eqn:Hb; [|done].
  injection H1 as <-. injection H2 as <-.
  exists doc, (Py.sorted start (named_entities doc)), i, a, b.
  split; [done|].
  split; [apply sorted_perm|].
  split; [apply (sorted_sorted start)|].
  split; [done|]. split; [done|].
  split; [by apply (sorted_lookup_le start (named_entities doc) i (S i)); [lia|..]|].
  done.
Qed.

(** * The Span Extractor *)

Lemma length_substring (s : string) (n m : nat) :
  String.length (String.substring n m s) = Nat.min m (String.length s - n).
Proof.
  revert n m. induction s as [|c s IH]; intros n m.
  - destruct n, m; simpl; lia.
  - destruct n as [|n].
    + destruct m as [|m]; simpl; [done|]. rewrite IH. lia.
    + simpl. rewrite IH. done.
Qed.

Lemma adjust_index_clamp (i n : Z) :
  0 <= n ->
  Py.adjust_index i n = Z.max 0 (Z.min n (if i <? 0 then i + n else i)).
Proof.
  intros Hn. unfold Py.adjust_index.
  destruct (Z.ltb_spec i 0).
  - destruct (Z.ltb_spec (i + n) 0); lia.
  - destruct (Z.leb_spec n i); lia.
Qed.

Lemma adjust_index_inside (i n : Z) : 0 <= i <= n -> Py.adjust_index i n = i.
Proof.
  intros Hi. unfold Py.adjust_index.
  destruct (Z.ltb_spec i 0); [lia|].
  destruct (Z.leb_spec n i); lia.
Qed.

Lemma str_slice_inside (s : string) (i j : Z) :
  0 <= i <= j -> j <= Py.str_len s ->
  Py.str_slice s i j = String.substring (Z.to_nat i) (Z.to_nat (j - i)) s.
Proof.
  intros Hij Hj. unfold Py.str_slice.
  rewrite !adjust_index_inside by lia.
  destruct (Z.ltb_spec i j); [done|].
  replace (j - i) with 0 by lia.
  generalize (Z.to_nat i). clear. intros n.
  revert n. induction s as [|c s IH]; intros [|n]; simpl; auto.
Qed.

Lemma str_slice_length (s : string) (i j : Z) :
  Z.of_nat (String.length (Py.str_slice s i j))
  = Z.max 0 (Py.adjust_index j (Py.str_len s) - Py.adjust_index i (Py.str_len s)).
Proof.
  unfold Py.str_slice.
  assert (Hn : 0 <= Py.str_len s) by (unfold Py.str_len; lia).
  pose proof (adjust_index_clamp i _ Hn) as Hi.
  pose proof (adjust_index_clamp j _ Hn) as Hj.
  destruct (Z.ltb_spec (Py.adjust_index i (Py.str_len s))
                       (Py.adjust_index j (Py.str_len s))) as [Hlt|Hge].
  - rewrite length_substring. unfold Py.str_len in *. lia.
  - simpl. lia.
Qed.

Lemma str_slice_get (s : string) (i j : Z) (p : nat) :
  (p < String.length (Py.str_slice s i j))%nat ->
  String.get p (Py.str_slice s i j)
  = String.get (Z.to_nat (Py.adjust_index i (Py.str_len s)) + p) s.
Proof.
  intros Hp. pose proof (str_slice_length s i j) as Hlen.
  unfold Py.str_slice in *.
  destruct (Z.ltb_spec (Py.adjust_index i (Py.str_len s))
                       (Py.adjust_index j (Py.str_len s))) as [Hlt|Hge].
  - rewrite String.substring_correct1 by lia. f_equal. lia.
  - simpl in Hp. lia.
Qed.

(** C2 (as the code has it). For offsets with 0 <= start <= end <= len(text)
    the Span Extractor returns what the specification asks for: an Entity
    of the annotation's type whose surface is text[start:end], that is
    end - start characters, the p-th being the character of text at
    start + p. For offsets outside that range it returns an Entity all the
    same, with Python's slice as surface, and raises nothing. *)
Theorem C2_span_extractor (a : NamedEntityAnnotation) (text : string) :
  (0 <= start a <= end_ a /\ end_ a <= Py.str_len text ->
   exists e : Entity,
     BuildGraph.extract_entities a text = Py.Returned e /\
     span_extractor_spec a text = Py.Returned e /\
     e_type e = entity a /\
     Z.of_nat (String.length (surface_string e)) = end_ a - start a /\
     forall p : nat, Z.of_nat p < end_ a - start a ->
       String.get p (surface_string e) = String.get (Z.to_nat (start a) + p) text)
  /\
  (~ (0 <= start a <= end_ a /\ end_ a <= Py.str_len text) ->
   span_extractor_spec a text = Py.Raised Py.OutOfRangeSpan /\
   BuildGraph.extract_entities a text
   = Py.Returned {| e_type := entity a;
                    surface_string := Py.str_slice text (start a) (end_ a) |}).
Proof.
  split.
  - intros [Hse He]. exists (entity_at text a).
    split; [apply extract_entities_Returned|].
    assert (Hs : surface_string (entity_at text a)
                 = String.substring (Z.to_nat (start a))
                                    (Z.to_nat (end_ a - start a)) text)
      by (apply str_slice_inside; lia).
    split.
    { unfold span_extractor_spec.
      destruct (Z.leb_spec 0 (start a)); [|lia].
      destruct (Z.leb_spec (start a) (end_ a)); [|lia].
      destruct (Z.leb_spec (end_ a) (Py.str_len text)); [|lia].
      simpl. unfold entity_at. f_equal. f_equal. symmetry. exact Hs. }
    split; [done|].
    rewrite Hs. split.
    + rewrite length_substring. unfold Py.str_len in He. lia.
    + intros p Hp. rewrite String.substring_correct1 by lia. f_equal. lia.
  - intros Hout. split; [|apply extract_entities_Returned].
    unfold span_extractor_spec.
    destruct (Z.leb_spec 0 (start a)); [|done].
    destruct (Z.leb_spec (start a) (end_ a)); [|done].
    destruct (Z.leb_spec (end_ a) (Py.str_len text)); [|done].
    lia.
Qed.

(** The annotation (ORG, 3, 99) on the five characters of Apple lies outside
    the text; the extractor returns the entity (ORG, le) where the
    specification asks for an [OutOfRangeSpan] error. *)
Lemma C2_counterexample :
  ~ (3 <= 99 /\ 99 <= Py.str_len "Apple") /\
  span_extractor_spec {| entity := "ORG"; start := 3; end_ := 99 |} "Apple"
  = Py.Raised Py.OutOfRangeSpan /\
  BuildGraph.extract_entities {| entity := "ORG"; start := 3; end_ := 99 |} "Apple"
  = Py.Returned {| e_type := "ORG"; surface_string := "le" |} /\
  BuildGraph.extract_entities {| entity := "ORG"; start := 3; end_ := 99 |} "Apple"
  <> span_extractor_spec {| entity := "ORG"; start := 3; end_ := 99 |} "Apple".
Proof.
  split; [vm_compute; intros [_ H]; by apply H|].
  split; [reflexivity|]. split; [reflexivity|]. discriminate.
Qed.

Lemma C2_witness :
  exists e : Entity,
    BuildGraph.extract_entities {| entity := "PERSON"; start := 12; end_ := 16 |}
                                "Apple hired John in Paris" = Py.Returned e /\
    surface_string e = "John".
Proof.
  destruct (C2_span_extractor {| entity := "PERSON"; start := 12; end_ := 16 |}
                              "Apple hired John in Paris") as [Hin _].
  destruct Hin as (e & He & _); [vm_compute; intuition discriminate|].
  exists e. split; [exact He|].
  vm_compute in He. injection He as <-. reflexivity.
Defined.

(** Offsets outside the text: a start before the beginning counted from the
    end, an end past the end cut at the end, a start after the end. *)
Example extract_entities_past_the_end :
  BuildGraph.extract_entities {| entity := "LOC"; start := -5; end_ := 99 |}
                              (content D1)
  = Py.Returned Paris.
Proof. reflexivity. Qed.

Example extract_entities_start_after_end :
  BuildGraph.extract_entities {| entity := "LOC"; start := 16; end_ := 12 |}
                              (content D1)
  = Py.Returned {| e_type := "LOC"; surface_string := EmptyString |}.
Proof. reflexivity. Qed.

(** C10. Span extraction is total: for every text and every integer start
    and end, [extract_entities] returns an Entity of the annotation's type
    and raises nothing. Its surface is the slice between the two offsets
    once each is brought into the text (a negative offset counts from the
    end, then both are clamped to [0, len(text)]): max(0, hi - lo)
    characters, read from position lo on, so the empty string when
    hi <= lo. *)
Theorem C10_extraction_is_total (text : string) (a : NamedEntityAnnotation) :
  exists e : Entity,
    BuildGraph.extract_entities a text = Py.Returned e /\
    e_type e = entity a /\
    let n := Py.str_len text in
    let lo := Z.max 0 (Z.min n (if start a <? 0 then start a + n else start a)) in
    let hi := Z.max 0 (Z.min n (if end_ a <? 0 then end_ a + n else end_ a)) in
    Z.of_nat (String.length (surface_string e)) = Z.max 0 (hi - lo) /\
    (forall p : nat, (p < String.length (surface_string e))%nat ->
       String.get p (surface_string e) = String.get (Z.to_nat lo + p) text) /\
    (hi <= lo -> surface_string e = EmptyString).
Proof.
  exists (entity_at text a).
  split; [apply extract_entities_Returned|]. split; [done|].
  assert (Hn : 0 <= Py.str_len text) by (unfold Py.str_len; lia).
  cbv zeta. rewrite <- !adjust_index_clamp by done.
  split; [apply str_slice_length|].
  split; [intros p Hp; by apply str_slice_get|].
  intros Hle. simpl. unfold Py.str_slice.
  destruct (Z.ltb_spec (Py.adjust_index (start a) (Py.str_len text))
                       (Py.adjust_index (end_ a) (Py.str_len text))); [lia|done].
Qed.

(** * The Entity Normalizer *)

Lemma entity_key_inj (e1 e2 : Entity) : entity_key e1 = entity_key e2 -> e1 = e2.
Proof. destruct e1, e2. unfold entity_key. simpl. congruence. Qed.

Lemma entity_normalizer_loop_eq (entities : list Entity)
    (seen : gset Entity) (out : list stdout_line) :
  entity_normalizer_loop entities seen out
  = (seen ∪ list_to_set entities,
     out ++ (Duplicated_entity <$> duplicates seen entities)).
Proof.
  revert seen out. induction entities as [|e entities IH]; intros seen out; simpl.
  - f_equal; [set_solver | by rewrite app_nil_r].
  - case_bool_decide; simpl; rewrite IH.
    + f_equal; [set_solver | by rewrite <- app_assoc].
    + f_equal. set_solver.
Qed.

Lemma entity_normalizer_eq (entities : list Entity) :
  entity_normalizer entities
  = (list_to_set entities, Duplicated_entity <$> duplicates ∅ entities).
Proof.
  unfold entity_normalizer. rewrite entity_normalizer_loop_eq.
  f_equal. set_solver.
Qed.

Lemma occurrences_cons (e x : Entity) (l : list Entity) :
  occurrences e (x :: l)
  = ((if bool_decide (x = e) then 1 else 0) + occurrences e l)%nat.
Proof.
  unfold occurrences. rewrite filter_cons.
  case_decide; case_bool_decide; simpl; congruence.
Qed.

Lemma occurrences_pos (e : Entity) (l : list Entity) :
  (0 < occurrences e l)%nat <-> e ∈ l.
Proof.
  induction l as [|x l IH].
  { rewrite elem_of_nil. unfold occurrences. simpl. lia. }
  rewrite occurrences_cons, elem_of_cons.
  case_bool_decide; [subst; split; [auto|lia]|].
  rewrite <- IH. split; [intros; right; lia|]. intros [->|]; [done|lia].
Qed.

(** Every occurrence after the first is printed, and only those. *)
Lemma occurrences_duplicates (e : Entity) (seen : gset Entity) (l : list Entity) :
  occurrences e (duplicates seen l)
  = if bool_decide (e ∈ seen) then occurrences e l
    else (occurrences e l - 1)%nat.
Proof.
  revert seen. induction l as [|x l IH]; intros seen; simpl.
  - by case_bool_decide.
  - rewrite (occurrences_cons e x l).
    destruct (decide (x ∈ seen)) as [Hx|Hx].
    + rewrite (bool_decide_eq_true_2 _ Hx).
      rewrite occurrences_cons, IH.
      repeat case_bool_decide; subst; try done; lia.
    + rewrite (bool_decide_eq_false_2 _ Hx), IH.
      repeat case_bool_decide; subst; try lia; set_solver.
Qed.

Lemma duplicates_positions (pre rest : list Entity) :
  duplicates (list_to_set pre) rest
  = omap (later_occurrence (pre ++ rest)) (seq (length pre) (length rest)).
Proof.
  revert pre. induction rest as [|e rest IH]; intros pre; [done|].
  cbn [duplicates length seq omap list_omap].
  assert (Hat : later_occurrence (pre ++ e :: rest) (length pre)
                = if bool_decide (e ∈ pre) then Some e else None).
  { unfold later_occurrence.
    rewrite lookup_app_r, Nat.sub_diag by lia. simpl.
    by rewrite take_app_length. }
  change (list_omap _ _ ?f ?l) with (omap f l).
  rewrite Hat.
  specialize (IH (pre ++ [e])).
  rewrite <- app_assoc, length_app in IH. cbn [app length] in IH.
  replace (length pre + 1)%nat with (S (length pre)) in IH by lia.
  rewrite <- IH.
  destruct (decide (e ∈ pre)) as [He|He].
  - rewrite !bool_decide_eq_true_2 by set_solver.
    f_equal. f_equal. set_solver.
  - rewrite !bool_decide_eq_false_2 by set_solver.
    f_equal. set_solver.
Qed.

Lemma duplicates_later_occurrences (l : list Entity) :
  duplicates ∅ l = later_occurrences l.
Proof. apply (duplicates_positions [] l). Qed.

Lemma filter_eq_NoDup (e : Entity) (l : list Entity) :
  NoDup l -> e ∈ l -> filter (fun m => m = e) l = [e].
Proof.
  induction 1 as [|x l Hx Hnd IH]; [by rewrite elem_of_nil|].
  rewrite filter_cons. intros [->|He]%elem_of_cons.
  - rewrite decide_True by done. f_equal.
    apply elem_of_nil_inv. intros y [-> Hy]%list_elem_of_filter. done.
  - rewrite decide_False by (intros ->; done). auto.
Qed.

(** C3. The Entity Normalizer returns a set with exactly the input's
    entities as members, one member per identity (type, surface): the
    members sharing the identity of two input entities e1, e2 with equal
    (type, surface) are the single member e2 = e1; and an entity is printed
    as duplicated exactly when it stands more than once in the input. *)
Theorem C3_normalizer_distinct (entities : list Entity) :
  exists (seen : gset Entity) (out : list stdout_line),
    entity_normalizer entities = (seen, out) /\
    (forall e, e ∈ seen <-> e ∈ entities) /\
    NoDup (elements seen) /\
    (forall e1 e2, e1 ∈ entities -> e2 ∈ entities ->
       entity_key e1 = entity_key e2 ->
       filter (fun m => entity_key m = entity_key e1) (elements seen) = [e2]) /\
    (forall e, Duplicated_entity e ∈ out <-> (2 <= occurrences e entities)%nat).
Proof.
  eexists _, _. split; [apply entity_normalizer_eq|].
  split; [intros e; apply elem_of_list_to_set|].
  split; [apply NoDup_elements|].
  split.
  - intros e1 e2 H1 H2 Hk. apply entity_key_inj in Hk as <-.
    rewrite (list_filter_iff _ (fun m => m = e1)).
    + apply filter_eq_NoDup; [apply NoDup_elements|].
      by apply elem_of_elements, elem_of_list_to_set.
    + intros m. split; [apply entity_key_inj | by intros ->].
  - intros e. rewrite list_elem_of_fmap. split.
    + intros (x & [= <-] & Hx). apply occurrences_pos in Hx.
      rewrite occurrences_duplicates in Hx.
      rewrite bool_decide_eq_false_2 in Hx by set_solver. lia.
    + intros Hocc. exists e. split; [done|].
      apply occurrences_pos. rewrite occurrences_duplicates.
      rewrite bool_decide_eq_false_2 by set_solver. lia.
Qed.

(** C8 (as the code has it). The Normalizer prints one line for every
    occurrence of an entity after its first, in input order, and a line
    names the entity and nothing else: an entity that stands k times in the
    input is listed k - 1 times. The entities listed, each taken where it
    is listed first, are those of the specified report, in its order. *)
Theorem C8_duplicate_lines (entities : list Entity) :
  exists (seen : gset Entity) (out : list stdout_line),
    entity_normalizer entities = (seen, out) /\
    line_entity <$> out = later_occurrences entities /\
    (forall e, occurrences e (line_entity <$> out)
               = (occurrences e entities - 1)%nat) /\
    first_occurrences (line_entity <$> out) = fst <$> duplicate_report_spec entities.
Proof.
  eexists _, _. split; [apply entity_normalizer_eq|].
  assert (Hout : line_entity <$> (Duplicated_entity <$> duplicates ∅ entities)
                 = duplicates ∅ entities).
  { rewrite <- list_fmap_compose. apply list_fmap_id. }
  rewrite Hout. split; [apply duplicates_later_occurrences|].
  split.
  - intros e. rewrite occurrences_duplicates.
    by rewrite bool_decide_eq_false_2 by set_solver.
  - unfold duplicate_report_spec.
    rewrite <- list_fmap_compose, duplicates_later_occurrences.
    symmetry. apply list_fmap_id.
Qed.

(** Three occurrences of (ORG, Apple): the Normalizer prints two lines, both
    naming the entity, where the specified report is the one record
    (entity, 3). *)
Lemma C8_counterexample :
  let apple := {| e_type := "ORG"; surface_string := "Apple" |} in
  (entity_normalizer [apple; apple; apple]).2
  = [Duplicated_entity apple; Duplicated_entity apple] /\
  duplicate_report_spec [apple; apple; apple] = [(apple, 3%nat)] /\
  line_entity <$> (entity_normalizer [apple; apple; apple]).2
  <> fst <$> duplicate_report_spec [apple; apple; apple].
Proof.
  cbv zeta. split; [by vm_compute|]. split; [by vm_compute|].
  vm_compute. discriminate.
Qed.

(** * The write loops of main *)

Lemma length_pairs {A B C} (f : A -> B -> C) (l : list A) (k : list B) :
  length (a ← l; b ← k; [f a b]) = (length l * length k)%nat.
Proof.
  induction l as [|x l IH]; [done|].
  cbn [mbind list_bind]. rewrite length_app.
  change (list_bind _ _ ?g l) with (mbind g l). rewrite IH.
  assert (Hk : length (b ← k; [f x b]) = length k).
  { clear. induction k as [|y k IHk]; [done|]. simpl. f_equal. exact IHk. }
  rewrite Hk. simpl. lia.
Qed.

Lemma persist_nodes_log (entities : list Entity) (h : Neo4j.handler) :
  Neo4j.log (persist_nodes entities h)
  = Neo4j.log h ++ (node_statement <$> entities).
Proof.
  revert h. induction entities as [|e entities IH]; intros h.
  - simpl. by rewrite app_nil_r.
  - unfold persist_nodes in *. cbn [foldl]. rewrite IH. simpl.
    by rewrite <- app_assoc.
Qed.

Lemma persist_nodes_node_count (entities : list Entity) (h : Neo4j.handler) :
  Neo4j.node_count (persist_nodes entities h)
  = (Neo4j.node_count h + length entities)%nat.
Proof.
  revert h. induction entities as [|e entities IH]; intros h; [simpl; lia|].
  unfold persist_nodes in *. cbn [foldl]. rewrite IH.
  unfold Neo4j.node_count. simpl. rewrite length_app. simpl. lia.
Qed.

Lemma persist_nodes_edges (entities : list Entity) (h : Neo4j.handler) :
  Neo4j.edges (Neo4j.store (persist_nodes entities h))
  = Neo4j.edges (Neo4j.store h).
Proof.
  revert h. induction entities as [|e entities IH]; intros h; [done|].
  unfold persist_nodes in *. cbn [foldl]. by rewrite IH.
Qed.

Lemma persist_relationships_log (rels : list Relationship) (h : Neo4j.handler) :
  Neo4j.log (persist_relationships rels h)
  = Neo4j.log h ++ (edge_statement <$> rels).
Proof.
  revert h. induction rels as [|r rels IH]; intros h.
  - simpl. by rewrite app_nil_r.
  - unfold persist_relationships in *. cbn [foldl]. rewrite IH. simpl.
    by rewrite <- app_assoc.
Qed.

Lemma persist_relationships_nodes (rels : list Relationship) (h : Neo4j.handler) :
  Neo4j.nodes (Neo4j.store (persist_relationships rels h))
  = Neo4j.nodes (Neo4j.store h).
Proof.
  revert h. induction rels as [|r rels IH]; intros h; [done|].
  unfold persist_relationships in *. cbn [foldl]. by rewrite IH.
Qed.

Lemma persist_relationships_edge_count (rels : list Relationship) (h : Neo4j.handler) :
  Neo4j.edge_count (persist_relationships rels h)
  = (Neo4j.edge_count h + edges_added (Neo4j.nodes (Neo4j.store h)) rels)%nat.
Proof.
  revert h. induction rels as [|r rels IH]; intros h.
  - unfold edges_added, Neo4j.edge_count. simpl. lia.
  - unfold persist_relationships in *. cbn [foldl]. rewrite IH.
    unfold edges_added, Neo4j.edge_count, Neo4j.create_relationship,
      Neo4j.execute_write. cbn [Neo4j.store Neo4j.tx_run Neo4j.nodes Neo4j.edges].
    rewrite length_app, length_pairs. cbn [fmap list_fmap sum_list].
    unfold edges_for, Datatypes.id. by rewrite Nat.add_assoc.
Qed.

(** The query texts the handler builds for the scenario's first entity and
    first relationship. *)
Example create_node_query_Apple :
  Neo4j.query (node_statement Apple)
  = "CREATE (n:ORG { surface_string: $surface_string })".
Proof. reflexivity. Qed.

Example create_relationship_query_Apple_John :
  Neo4j.query (edge_statement {| ent1 := Apple; ent2 := John; relationship := "D1" |})
  = ("MATCH (a:ORG { surface_string: $a_surface_string }), "
     +:+ "(b:PERSON { surface_string: $b_surface_string }) "
     +:+ "CREATE (a)-[r:RELATED { relationship: $r_relationship }]->(b)").
Proof. reflexivity. Qed.

Lemma main_Returned (documents : list Document) (db : Neo4j.graph) :
  main documents db
  = Py.Returned
      {| entities_normalised := list_to_set (mjoin (entities_of <$> documents));
         stdout := Duplicated_entity
                     <$> duplicates ∅ (mjoin (entities_of <$> documents));
         neo4j := persist_relationships (mjoin (relationships_of <$> documents))
                    (persist_nodes (mjoin (entities_of <$> documents))
                                   (Neo4j.connect db)) |}.
Proof.
  unfold main. rewrite run_Returned. cbn [mbind Py.outcome_bind fst snd].
  by rewrite entity_normalizer_eq.
Qed.

Lemma node_statement_is_node_write (e : Entity) :
  Neo4j.is_node_write (node_statement e) = true
  /\ Neo4j.is_edge_write (node_statement e) = false.
Proof. done. Qed.

Lemma edge_statement_is_edge_write (r : Relationship) :
  Neo4j.is_edge_write (edge_statement r) = true
  /\ Neo4j.is_node_write (edge_statement r) = false.
Proof. done. Qed.

(** C9. The scenario: for the one document D1 with content
    "Apple hired John in Paris" and the three annotations, the Graph
    Assembler returns the entities (ORG, Apple), (PERSON, John),
    (LOC, Paris) and the relationships (Apple, John, D1), (John, Paris, D1),
    in this order. *)
Theorem C9_scenario :
  BuildGraph.run [D1]
  = Py.Returned
      ([Apple; John; Paris],
       [ {| ent1 := Apple; ent2 := John; relationship := id D1 |};
         {| ent1 := John; ent2 := Paris; relationship := id D1 |} ]).
Proof. vm_compute. reflexivity. Qed.

(** C6. A run of main returns, and in the sequence of statements it sent to
    the store no edge write stands before a node write: the sequence is the
    node writes, one per entity of the run in order, followed by the edge
    writes, one per relationship in order, and the edge writes leave the
    nodes of the store as the node writes left them. *)
Theorem C6_nodes_before_edges (documents : list Document) (db : Neo4j.graph) :
  exists (r : main_result)
         (all_entities : list Entity) (all_relationships : list Relationship),
    main documents db = Py.Returned r /\
    BuildGraph.run documents = Py.Returned (all_entities, all_relationships) /\
    Neo4j.log (neo4j r)
    = (node_statement <$> all_entities) ++ (edge_statement <$> all_relationships) /\
    (forall (i j : nat) (s t : Neo4j.statement),
       Neo4j.log (neo4j r) !! i = Some s ->
       Neo4j.log (neo4j r) !! j = Some t ->
       Neo4j.is_edge_write s = true ->
       Neo4j.is_node_write t = true ->
       (j < i)%nat) /\
    Neo4j.nodes (Neo4j.store (neo4j r))
    = Neo4j.nodes (Neo4j.store (persist_nodes all_entities (Neo4j.connect db))).
Proof.
  eexists _, _, _. split; [apply main_Returned|].
  split; [apply run_Returned|]. cbn [neo4j].
  assert (Hlog : Neo4j.log
            (persist_relationships (mjoin (relationships_of <$> documents))
               (persist_nodes (mjoin (entities_of <$> documents))
                  (Neo4j.connect db)))
          = (node_statement <$> mjoin (entities_of <$> documents))
            ++ (edge_statement <$> mjoin (relationships_of <$> documents))).
  { by rewrite persist_relationships_log, persist_nodes_log. }
  split; [exact Hlog|].
  split; [|apply persist_relationships_nodes].
  rewrite Hlog. intros i j s t Hs Ht Hedge Hnode.
  destruct (decide (i < length (node_statement <$> mjoin (entities_of <$> documents)))%nat)
    as [Hi|Hi].
  - rewrite lookup_app_l in Hs by done.
    apply list_lookup_fmap_Some in Hs as (e & -> & He).
    by destruct (node_statement_is_node_write e) as [_ Hf]; rewrite Hf in Hedge.
  - destruct (decide (j < length (node_statement <$> mjoin (entities_of <$> documents)))%nat)
      as [Hj|Hj]; [lia|].
    rewrite lookup_app_r in Ht by lia.
    apply list_lookup_fmap_Some in Ht as (x & -> & Hx).
    by destruct (edge_statement_is_edge_write x) as [_ Hf]; rewrite Hf in Hnode.
Qed.

(** C4 (what main does on two documents that both mention Apple). The
    normalized set holds (ORG, Apple) once among its three members, and the
    node loop, which iterates the assembler's entity list and not the
    normalized set, sends four node writes, two of them for (ORG, Apple);
    the store ends with two Apple nodes. *)
Theorem C4_node_write_per_occurrence :
  exists r : main_result,
    main [D1; D2] Neo4j.empty = Py.Returned r /\
    Apple ∈ entities_normalised r /\
    size (entities_normalised r) = 3%nat /\
    filter (fun s => Neo4j.is_node_write s = true) (Neo4j.log (neo4j r))
    = [node_statement Apple; node_statement John; node_statement Paris;
       node_statement Apple] /\
    length (Neo4j.matching "ORG" [("surface_string", "Apple")]
                           (Neo4j.nodes (Neo4j.store (neo4j r)))) = 2%nat.
Proof.
  eexists. split; [by vm_compute|].
  split; [by vm_compute|]. split; [by vm_compute|].
  split; by vm_compute.
Qed.

(** C5 (as the code has it). Neither write loop is idempotent. The node
    loop adds one node per item whatever the store holds, so run twice on
    the same entities it adds twice as many nodes as run once. The edge
    loop leaves the nodes alone and adds, per relationship, one edge for
    every pair of nodes matching its ends, so run twice on the same
    relationships it adds twice as many edges as run once. *)
Theorem C5_writes_are_not_idempotent
    (entities : list Entity) (relationships : list Relationship)
    (h : Neo4j.handler) :
  Neo4j.node_count (persist_nodes entities h)
  = (Neo4j.node_count h + length entities)%nat /\
  Neo4j.node_count (persist_nodes entities (persist_nodes entities h))
  = (Neo4j.node_count h + 2 * length entities)%nat /\
  Neo4j.edge_count (persist_relationships relationships h)
  = (Neo4j.edge_count h
     + edges_added (Neo4j.nodes (Neo4j.store h)) relationships)%nat /\
  Neo4j.edge_count
    (persist_relationships relationships (persist_relationships relationships h))
  = (Neo4j.edge_count h
     + 2 * edges_added (Neo4j.nodes (Neo4j.store h)) relationships)%nat.
Proof.
  split; [apply persist_nodes_node_count|].
  split; [rewrite !persist_nodes_node_count; lia|].
  split; [apply persist_relationships_edge_count|].
  rewrite !persist_relationships_edge_count, persist_relationships_nodes. lia.
Qed.

(** The normalized set of one entity, (ORG, Apple), written twice to an empty
    store leaves two nodes; written once it leaves one. *)
Lemma C5_counterexample :
  Neo4j.node_count
    (persist_nodes (elements ({[Apple]} : gset Entity))
       (persist_nodes (elements ({[Apple]} : gset Entity))
          (Neo4j.connect Neo4j.empty)))
  <> Neo4j.node_count
       (persist_nodes (elements ({[Apple]} : gset Entity))
          (Neo4j.connect Neo4j.empty)).
Proof. vm_compute. discriminate. Qed.

(** * More on BuildGraph.run: batches, counts and order *)

Lemma length_mjoin {A} (ls : list (list A)) :
  length (mjoin ls) = sum_list (length <$> ls).
Proof.
  induction ls as [|l ls IH]; [done|].
  cbn [mjoin list_join fmap list_fmap sum_list]. rewrite length_app.
  f_equal. exact IH.
Qed.

Lemma length_entities_of (doc : Document) :
  length (entities_of doc) = length (named_entities doc).
Proof. unfold entities_of. by rewrite length_fmap, sorted_length. Qed.

Lemma length_relationships_of (doc : Document) :
  length (relationships_of doc) = (length (named_entities doc) - 1)%nat.
Proof.
  unfold relationships_of.
  by rewrite length_fmap, length_adjacent, length_entities_of.
Qed.

Lemma relationships_of_ends (doc : Document) (r : Relationship) :
  r ∈ relationships_of doc ->
  ent1 r ∈ entities_of doc /\ ent2 r ∈ entities_of doc.
Proof.
  unfold relationships_of.
  intros ([a b] & -> & Hp)%list_elem_of_fmap.
  apply list_elem_of_lookup in Hp as [i Hi].
  apply lookup_adjacent in Hi as [Ha Hb]. simpl.
  split; eapply list_elem_of_lookup_2; eauto.
Qed.

(** Two lists sorted by a key and holding the same items are the same list
    when no two items share a key. *)
Lemma sorted_by_key_unique {A} (key : A -> Z) (l1 l2 : list A) :
  StronglySorted (key_le key) l1 -> StronglySorted (key_le key) l2 ->
  l1 ≡ₚ l2 -> NoDup (key <$> l1) -> l1 = l2.
Proof.
  intros H1. revert l2. induction H1 as [|x l1 Hs1 IH Hx]; intros l2 H2 Hp Hnd.
  - by apply Permutation_nil_l in Hp.
  - destruct H2 as [|y l2 Hs2 Hy].
    { by apply Permutation_nil_r in Hp. }
    assert (Hxy : x = y).
    { assert (Hyin : y ∈ x :: l1) by (rewrite Hp; left).
      assert (Hxin : x ∈ y :: l2) by (rewrite <- Hp; left).
      apply elem_of_cons in Hyin as [Hyx|Hyin]; [done|].
      apply elem_of_cons in Hxin as [Hxy|Hxin]; [done|].
      rewrite Forall_forall in Hx, Hy.
      pose proof (Hx y Hyin) as Hle1. pose proof (Hy x Hxin) as Hle2.
      unfold key_le in *. exfalso.
      rewrite fmap_cons in Hnd. apply NoDup_cons in Hnd as [Hnotin _].
      apply Hnotin. replace (key x) with (key y) by lia.
      by apply list_elem_of_fmap_2. }
    subst y. f_equal. apply IH; [done| |].
    + by apply (inj (cons x)).
    + rewrite fmap_cons in Hnd. by apply NoDup_cons in Hnd as [_ ?].
Qed.

Lemma sorted_of_permutation {A} (key : A -> Z) (l l' : list A) :
  l ≡ₚ l' -> NoDup (key <$> l) -> Py.sorted key l = Py.sorted key l'.
Proof.
  intros Hp Hnd. apply (sorted_by_key_unique key).
  - apply sorted_sorted.
  - apply sorted_sorted.
  - by rewrite !sorted_perm.
  - by rewrite (sorted_perm key l).
Qed.

(** X1. A run over two batches put one after the other returns the entities
    of the first run followed by those of the second, and the same for the
    relationships: documents do not influence one another. *)
Theorem X1_run_of_appended_batches (batch1 batch2 : list Document) :
  exists (E1 E2 : list Entity) (R1 R2 : list Relationship),
    BuildGraph.run batch1 = Py.Returned (E1, R1) /\
    BuildGraph.run batch2 = Py.Returned (E2, R2) /\
    BuildGraph.run (batch1 ++ batch2) = Py.Returned (E1 ++ E2, R1 ++ R2).
Proof.
  eexists _, _, _, _. split; [apply run_Returned|].
  split; [apply run_Returned|].
  rewrite run_Returned, !fmap_app, !join_app. reflexivity.
Qed.

(** X2. A run returns one entity per annotation of the batch, and one
    relationship less than entities for every document that has an
    annotation: the relationships and the annotated documents together count
    as many as the entities. *)
Theorem X2_run_counts (documents : list Document) :
  exists (E : list Entity) (R : list Relationship),
    BuildGraph.run documents = Py.Returned (E, R) /\
    length E = sum_list ((fun d => length (named_entities d)) <$> documents) /\
    (length R + length (filter (fun d => named_entities d <> []) documents)
     = length E)%nat.
Proof.
  eexists _, _. split; [apply run_Returned|].
  rewrite !length_mjoin, <- !list_fmap_compose.
  induction documents as [|d documents [IH1 IH2]]; [done|].
  rewrite !fmap_cons, filter_cons. cbn [sum_list compose] in *.
  rewrite length_entities_of, length_relationships_of.
  unfold Datatypes.id in *. split; [by rewrite IH1|].
  case_decide as Hd.
  - destruct (named_entities d) eqn:Hn; [done|]. cbn [length] in *. lia.
  - rewrite Hd. cbn [length]. lia.
Qed.

(** X3. Both ends of every relationship a run returns are entities the same
    run returns. *)
Theorem X3_relationship_ends_are_returned_entities (documents : list Document) :
  exists (E : list Entity) (R : list Relationship),
    BuildGraph.run documents = Py.Returned (E, R) /\
    forall r, r ∈ R -> ent1 r ∈ E /\ ent2 r ∈ E.
Proof.
  eexists _, _. split; [apply run_Returned|].
  intros r (rels & Hr & (doc & -> & Hdoc)%list_elem_of_fmap)%list_elem_of_join.
  apply relationships_of_ends in Hr as [H1 H2].
  split; apply list_elem_of_join; eexists; split; eauto;
    by apply list_elem_of_fmap_2.
Qed.

(** X4. When no two annotations of a document start at the same offset, the
    order in which the annotations are stored does not matter: a run on the
    document with its annotations permuted returns the same entities and
    relationships. *)
Theorem X4_annotation_order_is_irrelevant
    (doc_id text : string) (anns anns' : list NamedEntityAnnotation) :
  anns ≡ₚ anns' ->
  NoDup (start <$> anns) ->
  BuildGraph.run [ {| id := doc_id; content := text; named_entities := anns |} ]
  = BuildGraph.run [ {| id := doc_id; content := text; named_entities := anns' |} ].
Proof.
  intros Hp Hnd. rewrite !run_Returned.
  cbn [fmap list_fmap mjoin list_join].
  unfold relationships_of, entities_of. cbn [named_entities content id].
  by rewrite (sorted_of_permutation start anns anns').
Qed.

Lemma X4_witness :
  BuildGraph.run [D1]
  = BuildGraph.run [ {| id := id D1; content := content D1;
                        named_entities := reverse (named_entities D1) |} ].
Proof.
  apply (X4_annotation_order_is_irrelevant (id D1) (content D1)
           (named_entities D1) (reverse (named_entities D1))).
  - symmetry. apply reverse_Permutation.
  - apply (bool_decide_unpack _). vm_compute. exact I.
Defined.

(** X5. Whenever positions i and i + 1 of an entity list hold a and b, the
    Relationship Builder returns (a, b, document id) at position i, equal
    neighbours included: no pair of neighbours is skipped or reordered. *)
Theorem X5_relationship_at_position
    (entities : list Entity) (doc_id : string) (i : nat) (a b : Entity) :
  entities !! i = Some a ->
  entities !! S i = Some b ->
  exists relationships : list Relationship,
    BuildGraph.doc_relationships entities doc_id = Py.Returned relationships /\
    relationships !! i = Some {| ent1 := a; ent2 := b; relationship := doc_id |}.
Proof.
  intros Ha Hb. eexists. split; [apply doc_relationships_adjacent|].
  rewrite list_lookup_fmap.
  by rewrite (proj2 (lookup_adjacent entities i a b) (conj Ha Hb)).
Qed.

Lemma X5_witness :
  exists relationships : list Relationship,
    BuildGraph.doc_relationships [Apple; Apple; Paris] "D1"
    = Py.Returned relationships /\
    relationships !! 0%nat
    = Some {| ent1 := Apple; ent2 := Apple; relationship := "D1" |}.
Proof.
  apply (X5_relationship_at_position [Apple; Apple; Paris] "D1" 0 Apple Apple);
    reflexivity.
Defined.

(** X6. The entities of a document are the entities extracted from its
    annotations as stored, up to order: sorting drops none and adds none. *)
Theorem X6_entities_are_the_annotations (doc : Document) :
  exists (E E0 : list Entity),
    BuildGraph.doc_entities doc = Py.Returned E /\
    mapM (fun a => BuildGraph.extract_entities a (content doc))
         (named_entities doc) = Py.Returned E0 /\
    E ≡ₚ E0.
Proof.
  exists (entities_of doc), (entity_at (content doc) <$> named_entities doc).
  split; [apply doc_entities_Returned|].
  split; [apply mapM_Returned; intros a _; apply extract_entities_Returned|].
  unfold entities_of. by rewrite sorted_perm.
Qed.

(** * More on the Entity Normalizer *)

Lemma size_duplicates (seen : gset Entity) (l : list Entity) :
  (size (seen ∪ list_to_set l) + length (duplicates seen l)
   = size seen + length l)%nat.
Proof.
  revert seen. induction l as [|e l IH]; intros seen.
  - cbn [duplicates length list_to_set]. rewrite (right_id_L ∅ (∪)). lia.
  - cbn [duplicates list_to_set]. destruct (decide (e ∈ seen)) as [He|He].
    + rewrite (bool_decide_eq_true_2 _ He).
      replace (seen ∪ ({[e]} ∪ list_to_set l)) with (seen ∪ list_to_set l)
        by set_solver.
      specialize (IH seen). cbn [length]. lia.
    + rewrite (bool_decide_eq_false_2 _ He).
      replace (seen ∪ ({[e]} ∪ list_to_set l))
        with (({[e]} ∪ seen) ∪ list_to_set l) by set_solver.
      specialize (IH ({[e]} ∪ seen)).
      rewrite (size_union {[e]} seen), size_singleton in IH by set_solver.
      cbn [length]. lia.
Qed.

Lemma duplicates_nil (seen : gset Entity) (l : list Entity) :
  duplicates seen l = [] <-> NoDup l /\ forall e, e ∈ l -> e ∉ seen.
Proof.
  revert seen. induction l as [|e l IH]; intros seen.
  - split; [|done]. intros _. split; [constructor|]. by intros e ?%elem_of_nil.
  - cbn [duplicates]. destruct (decide (e ∈ seen)) as [He|He].
    + rewrite (bool_decide_eq_true_2 _ He). split; [done|].
      intros [_ Hall]. exfalso. apply (Hall e); [left|done].
    + rewrite (bool_decide_eq_false_2 _ He), IH, NoDup_cons. split.
      * intros [Hnd Hall]. split.
        -- split; [|done]. intros Hin. apply (Hall e Hin). set_solver.
        -- intros x [->|Hx]%elem_of_cons; [done|].
           intros Hs. apply (Hall x Hx). set_solver.
      * intros [[Hnotin Hnd] Hall]. split; [done|].
        intros x Hx [Hxe|Hs]%elem_of_union.
        -- apply elem_of_singleton in Hxe as ->. done.
        -- apply (Hall x); [by right|done].
Qed.

Lemma fmap_nil_iff {A B} (f : A -> B) (l : list A) : f <$> l = [] <-> l = [].
Proof. by destruct l. Qed.

Lemma line_entity_Duplicated (l : list Entity) :
  line_entity <$> (Duplicated_entity <$> l) = l.
Proof. rewrite <- list_fmap_compose. apply list_fmap_id. Qed.

Lemma occurrences_perm (e : Entity) (l l' : list Entity) :
  l ≡ₚ l' -> occurrences e l = occurrences e l'.
Proof. intros Hp. unfold occurrences. by rewrite Hp. Qed.

(** X7. Every input entity is either added to the returned set or printed
    as duplicated, never both and never neither: the members of the set and
    the printed lines together count as many as the input. *)
Theorem X7_normalizer_accounts_for_every_entity (entities : list Entity) :
  exists (seen : gset Entity) (out : list stdout_line),
    entity_normalizer entities = (seen, out) /\
    (size seen + length out = length entities)%nat.
Proof.
  eexists _, _. split; [apply entity_normalizer_eq|].
  rewrite length_fmap.
  pose proof (size_duplicates ∅ entities) as H.
  rewrite (left_id_L ∅ (∪)), size_empty in H. lia.
Qed.

(** X8. The Normalizer prints nothing exactly when no entity stands twice
    in its input. *)
Theorem X8_silent_iff_no_duplicate (entities : list Entity) :
  exists (seen : gset Entity) (out : list stdout_line),
    entity_normalizer entities = (seen, out) /\
    (out = [] <-> NoDup entities).
Proof.
  eexists _, _. split; [apply entity_normalizer_eq|].
  rewrite fmap_nil_iff, duplicates_nil. set_solver.
Qed.

(** X9. The order of the input does not change what the Normalizer returns
    or how often it reports an entity: on a permutation of its input it
    returns the same set and prints, for every entity, as many lines. *)
Theorem X9_normalizer_on_a_permutation (entities entities' : list Entity) :
  entities ≡ₚ entities' ->
  (entity_normalizer entities).1 = (entity_normalizer entities').1 /\
  forall e,
    occurrences e (line_entity <$> (entity_normalizer entities).2)
    = occurrences e (line_entity <$> (entity_normalizer entities').2).
Proof.
  intros Hp. rewrite !entity_normalizer_eq. cbn [fst snd]. split.
  - apply set_eq. intros e. rewrite !elem_of_list_to_set. by rewrite Hp.
  - intros e. rewrite !line_entity_Duplicated, !occurrences_duplicates.
    by rewrite (occurrences_perm e _ _ Hp).
Qed.

Lemma X9_witness :
  (entity_normalizer [Apple; John; Apple]).1
  = (entity_normalizer [Apple; Apple; John]).1.
Proof.
  apply (X9_normalizer_on_a_permutation [Apple; John; Apple] [Apple; Apple; John]).
  apply perm_skip, perm_swap.
Defined.

(** X10. Normalizing again changes nothing: run on the members of a set it
    returned, the Normalizer returns that set and prints nothing. *)
Theorem X10_normalizer_is_idempotent (entities : list Entity) :
  exists (seen : gset Entity) (out : list stdout_line),
    entity_normalizer entities = (seen, out) /\
    entity_normalizer (elements seen) = (seen, []).
Proof.
  eexists _, _. split; [apply entity_normalizer_eq|].
  rewrite entity_normalizer_eq, list_to_set_elements_L. f_equal.
  apply fmap_nil_iff, duplicates_nil.
  split; [apply NoDup_elements | set_solver].
Qed.

(** * More on Neo4jHandler *)

Lemma prefixed_fold (prefix : string) (props : Neo4j.properties)
    (m : gmap string string) (q v : string) :
  NoDup (Neo4j.keys props) ->
  foldl (fun m kv => <[prefix +:+ kv.1 := kv.2]> m) m props !! q = Some v
  <-> (exists k, q = prefix +:+ k /\ (k, v) ∈ props)
      \/ (m !! q = Some v /\ forall k, k ∈ Neo4j.keys props -> q <> prefix +:+ k).
Proof.
  revert m. induction props as [|[k0 v0] props IH]; intros m Hnd.
  - cbn [foldl]. split.
    + intros Hm. right. split; [done|]. by intros k ?%elem_of_nil.
    + intros [(k & _ & ?%elem_of_nil)|[Hm _]]; done.
  - unfold Neo4j.keys in *. cbn [map fst] in Hnd.
    apply NoDup_cons in Hnd as [Hk0 Hnd].
    cbn [foldl fst snd]. rewrite (IH _ Hnd). clear IH. split.
    + intros [(k & -> & Hk)|[Hm Hq]].
      * left. exists k. split; [done|by right].
      * destruct (decide (q = prefix +:+ k0)) as [->|Hne].
        -- rewrite lookup_insert_eq in Hm. injection Hm as <-.
           left. exists k0. split; [done|left].
        -- rewrite lookup_insert_ne in Hm by done.
           right. split; [done|].
           intros k [->|Hk]%elem_of_cons; [done|by apply Hq].
    + intros [(k & -> & [[= -> ->]|Hk]%elem_of_cons)|[Hm Hq]].
      * right. split; [by rewrite lookup_insert_eq|].
        intros k Hk Heq. apply (inj _) in Heq as ->. done.
      * left. eauto.
      * right. split.
        -- rewrite lookup_insert_ne; [done|].
           intros Heq. apply (Hq k0); [left|done].
        -- intros k Hk. apply Hq. by right.
Qed.

Lemma prefixed_lookup (prefix : string) (props : Neo4j.properties) (q v : string) :
  NoDup (Neo4j.keys props) ->
  Params.prefixed prefix props !! q = Some v
  <-> exists k, q = prefix +:+ k /\ (k, v) ∈ props.
Proof.
  intros Hnd. unfold Params.prefixed. rewrite (prefixed_fold _ _ _ _ _ Hnd).
  rewrite lookup_empty. naive_solver.
Qed.

Lemma prefixed_lookup_None (prefix : string) (props : Neo4j.properties) (q : string) :
  NoDup (Neo4j.keys props) ->
  (forall k, q <> prefix +:+ k) ->
  Params.prefixed prefix props !! q = None.
Proof.
  intros Hnd Hq. apply eq_None_not_Some. intros [v Hv].
  apply (prefixed_lookup _ _ _ _ Hnd) in Hv as (k & -> & _). by apply (Hq k).
Qed.

(** X11. The parameters sent with a relationship write hold every property
    of the first end under its name prefixed with a_, every property of the
    second end prefixed with b_, every property of the relationship prefixed
    with r_, and nothing else: the three dicts never overwrite one another,
    even when they use the same property names. *)
Theorem X11_relationship_parameters
    (properties1 properties2 rel_properties : Neo4j.properties) (q v : string) :
  NoDup (Neo4j.keys properties1) ->
  NoDup (Neo4j.keys properties2) ->
  NoDup (Neo4j.keys rel_properties) ->
  Params.create_relationship_params properties1 properties2 rel_properties !! q
  = Some v
  <-> (exists k, q = "a_" +:+ k /\ (k, v) ∈ properties1)
      \/ (exists k, q = "b_" +:+ k /\ (k, v) ∈ properties2)
      \/ (exists k, q = "r_" +:+ k /\ (k, v) ∈ rel_properties).
Proof.
  intros H1 H2 H3. unfold Params.create_relationship_params, Params.merge.
  rewrite !lookup_union_Some_raw.
  rewrite (prefixed_lookup "a_" _ _ _ H1), (prefixed_lookup "b_" _ _ _ H2),
    (prefixed_lookup "r_" _ _ _ H3).
  split.
  - naive_solver.
  - intros [(k & -> & Hk)|[(k & -> & Hk)|(k & -> & Hk)]].
    + right. split; [by apply prefixed_lookup_None|].
      right. split; [by apply prefixed_lookup_None|]. eauto.
    + right. split; [by apply prefixed_lookup_None|]. left. eauto.
    + left. eauto.
Qed.

Lemma X11_witness :
  Params.create_relationship_params
    [("surface_string", "Apple")] [("surface_string", "John")]
    [("relationship", "D1")] !! "b_surface_string"
  = Some "John".
Proof.
  apply (X11_relationship_parameters
           [("surface_string", "Apple")] [("surface_string", "John")]
           [("relationship", "D1")] "b_surface_string" "John").
  - apply (bool_decide_unpack _). vm_compute. exact I.
  - apply (bool_decide_unpack _). vm_compute. exact I.
  - apply (bool_decide_unpack _). vm_compute. exact I.
  - right. left. exists "surface_string". split; [reflexivity|left].
Defined.

(** X12. A relationship write whose first or second end matches no node of
    the store changes nothing in the store and raises nothing: the
    relationship is dropped without a trace other than the statement sent. *)
Theorem X12_relationship_without_node_is_dropped
    (h : Neo4j.handler)
    (label1 : string) (properties1 : Neo4j.properties)
    (label2 : string) (properties2 : Neo4j.properties)
    (rel_type : string) (rel_properties : Neo4j.properties) :
  Neo4j.matching label1 properties1 (Neo4j.nodes (Neo4j.store h)) = []
  \/ Neo4j.matching label2 properties2 (Neo4j.nodes (Neo4j.store h)) = [] ->
  Neo4j.store (Neo4j.create_relationship h label1 properties1
                 label2 properties2 rel_type rel_properties)
  = Neo4j.store h.
Proof.
  intros Hnone. destruct h as [[ns es] lg].
  unfold Neo4j.create_relationship, Neo4j.execute_write.
  cbn [Neo4j.store Neo4j.tx_run Neo4j.nodes Neo4j.edges] in *.
  f_equal. rewrite <- (app_nil_r es) at 2. f_equal.
  apply length_zero_iff_nil. rewrite length_pairs.
  destruct Hnone as [-> | ->]; cbn [length]; lia.
Qed.

Lemma X12_witness :
  Neo4j.store
    (Neo4j.create_relationship (persist_nodes [Apple] (Neo4j.connect Neo4j.empty))
       "ORG" [("surface_string", "Apple")]
       "PERSON" [("surface_string", "John")]
       "RELATED" [("relationship", "D1")])
  = Neo4j.store (persist_nodes [Apple] (Neo4j.connect Neo4j.empty)).
Proof.
  apply (X12_relationship_without_node_is_dropped
           (persist_nodes [Apple] (Neo4j.connect Neo4j.empty))).
  right. reflexivity.
Defined.

(** * More on main: what the store holds after a run *)

(** A node pattern built from an entity matches exactly the nodes written
    for that entity. *)
Lemma matches_entity_node (e x : Entity) (i : nat) :
  Neo4j.matches (e_type e) [("surface_string", surface_string e)]
    {| Neo4j.node_id := i; Neo4j.node_label := e_type x;
       Neo4j.node_props := [("surface_string", surface_string x)] |}
  = bool_decide (x = e).
Proof.
  unfold Neo4j.matches. cbn [Neo4j.node_label Neo4j.node_props forallb fst snd].
  cbn [Neo4j.prop_lookup fst snd].
  rewrite (bool_decide_eq_true_2 ("surface_string" = "surface_string")) by done.
  rewrite andb_true_r.
  destruct e as [te se], x as [tx sx]. cbn [e_type surface_string].
  repeat case_bool_decide; simplify_eq; done.
Qed.

Lemma matching_persist_nodes (e : Entity) (entities : list Entity)
    (h : Neo4j.handler) :
  length (Neo4j.matching (e_type e) [("surface_string", surface_string e)]
            (Neo4j.nodes (Neo4j.store (persist_nodes entities h))))
  = (length (Neo4j.matching (e_type e) [("surface_string", surface_string e)]
               (Neo4j.nodes (Neo4j.store h)))
     + occurrences e entities)%nat.
Proof.
  revert h. induction entities as [|x entities IH]; intros h.
  - unfold occurrences. cbn. lia.
  - unfold persist_nodes in *. cbn [foldl]. rewrite IH, occurrences_cons.
    unfold Neo4j.create_node, Neo4j.execute_write, Neo4j.matching.
    cbn [Neo4j.store Neo4j.tx_run Neo4j.nodes].
    rewrite filter_app, length_app, filter_cons, filter_nil.
    rewrite matches_entity_node.
    case_decide as Hm; case_bool_decide; try done; cbn [length]; lia.
Qed.

Lemma edges_added_after_persist_nodes (E : list Entity) (R : list Relationship) :
  edges_added (Neo4j.nodes (Neo4j.store (persist_nodes E (Neo4j.connect Neo4j.empty)))) R
  = sum_list ((fun r => occurrences (ent1 r) E * occurrences (ent2 r) E)%nat <$> R).
Proof.
  unfold edges_added. f_equal. apply list_fmap_ext. intros _ r _.
  unfold edges_for. by rewrite !matching_persist_nodes.
Qed.

Lemma sum_list_at_least (f : Relationship -> nat) (R : list Relationship) :
  (forall r, r ∈ R -> (1 <= f r)%nat) -> (length R <= sum_list (f <$> R))%nat.
Proof.
  induction R as [|r R IH]; intros Hf; [done|].
  rewrite fmap_cons. cbn [sum_list sum_list_with length].
  pose proof (Hf r ltac:(left)) as H1.
  assert (H2 : (length R <= sum_list (f <$> R))%nat)
    by (apply IH; intros; apply Hf; by right).
  unfold Datatypes.id, sum_list in *. lia.
Qed.

(** X13. A run of main against an empty store leaves one node per entity of
    the run (repeated entities included) and, for every relationship, one
    edge for each pair of an occurrence of its first end and an occurrence
    of its second end; so no relationship is left without an edge, and an
    entity mentioned several times multiplies the edges of its
    relationships. *)
Theorem X13_store_after_main (documents : list Document) :
  exists (r : main_result) (E : list Entity) (R : list Relationship),
    main documents Neo4j.empty = Py.Returned r /\
    BuildGraph.run documents = Py.Returned (E, R) /\
    Neo4j.node_count (neo4j r) = length E /\
    Neo4j.edge_count (neo4j r)
    = sum_list ((fun x => occurrences (ent1 x) E * occurrences (ent2 x) E)%nat <$> R) /\
    (length R <= Neo4j.edge_count (neo4j r))%nat.
Proof.
  eexists _, _, _. split; [apply main_Returned|].
  split; [apply run_Returned|]. cbn [neo4j].
  set (E := mjoin (entities_of <$> documents)).
  set (R := mjoin (relationships_of <$> documents)).
  assert (Hedges : Neo4j.edge_count
                     (persist_relationships R (persist_nodes E (Neo4j.connect Neo4j.empty)))
                   = sum_list ((fun x => occurrences (ent1 x) E
                                         * occurrences (ent2 x) E)%nat <$> R)).
  { rewrite persist_relationships_edge_count, edges_added_after_persist_nodes.
    unfold Neo4j.edge_count. by rewrite persist_nodes_edges. }
  split.
  { unfold Neo4j.node_count. rewrite persist_relationships_nodes.
    change (length (Neo4j.nodes (Neo4j.store ?h))) with (Neo4j.node_count h).
    by rewrite persist_nodes_node_count. }
  split; [exact Hedges|].
  rewrite Hedges. apply sum_list_at_least.
  intros r (rels & Hr & (doc & -> & Hdoc)%list_elem_of_fmap)%list_elem_of_join.
  apply relationships_of_ends in Hr as [H1 H2].
  assert (Hin : forall e, e ∈ entities_of doc -> (0 < occurrences e E)%nat).
  { intros e He. apply occurrences_pos, list_elem_of_join.
    exists (entities_of doc). split; [done|by apply list_elem_of_fmap_2]. }
  pose proof (Hin _ H1). pose proof (Hin _ H2). nia.
Qed.

(** * read_documents *)

Lemma mapM_outcome_Forall2 {A B} (f : A -> Py.outcome B) (l : list A) (k : list B) :
  mapM f l = Py.Returned k <-> Forall2 (fun x y => f x = Py.Returned y) l k.
Proof.
  revert k. induction l as [|x l IH]; intros k; cbn [mapM].
  { split; [intros [= <-]; constructor | by inversion 1]. }
  split.
  - destruct (f x) as [y|e] eqn:Hx; cbn [mbind Py.outcome_bind]; [|done].
    destruct (mapM f l) as [k'|e] eqn:Hl; cbn [mbind Py.outcome_bind]; [|done].
    intros [= <-]. constructor; [done|]. by apply IH.
  - inversion 1 as [|? y ? k' Hy Hk]; subst.
    apply IH in Hk. rewrite Hy. cbn [mbind Py.outcome_bind].
    rewrite Hk. reflexivity.
Qed.

Lemma mapM_outcome_Raised {A B} (f : A -> Py.outcome B) (l : list A) (e : Py.exn) :
  (forall x, x ∈ l -> (exists y, f x = Py.Returned y) \/ f x = Py.Raised e) ->
  Exists (fun x => f x = Py.Raised e) l ->
  mapM f l = Py.Raised e.
Proof.
  induction l as [|x l IH]; intros Hall Hex; [by inversion Hex|].
  cbn [mapM]. destruct (Hall x ltac:(left)) as [[y Hy]|Hx].
  - rewrite Hy. cbn [mbind Py.outcome_bind]. rewrite IH; [done| |].
    + intros z Hz. apply Hall. by right.
    + inversion Hex as [? ? Hx|]; subst; [congruence|done].
  - by rewrite Hx.
Qed.

Lemma read_row_Returned (row : list string) (c t x : string) :
  row !! 0%nat = Some c -> row !! 2%nat = Some t -> row !! 3%nat = Some x ->
  ReadDocuments.read_row row
  = Py.Returned {| ReadDocuments.content := ReadDocuments.strip x;
                   ReadDocuments.category := ReadDocuments.strip c;
                   ReadDocuments.title := ReadDocuments.strip t |}.
Proof.
  intros H0 H2 H3. unfold ReadDocuments.read_row.
  pose proof (getitem_lookup row 0 c H0) as G0.
  pose proof (getitem_lookup row 2 t H2) as G2.
  pose proof (getitem_lookup row 3 x H3) as G3.
  change (Z.of_nat 0) with 0 in G0. change (Z.of_nat 2) with 2 in G2.
  change (Z.of_nat 3) with 3 in G3.
  rewrite G0. cbn [mbind Py.outcome_bind].
  rewrite G2. cbn [mbind Py.outcome_bind].
  rewrite G3. reflexivity.
Qed.

Lemma read_row_long (row : list string) :
  (4 <= length row)%nat ->
  exists c t x,
    row !! 0%nat = Some c /\ row !! 2%nat = Some t /\ row !! 3%nat = Some x.
Proof.
  destruct row as [|c [|b [|t [|x rest]]]]; cbn [length]; try lia.
  intros _. by exists c, t, x.
Qed.

Lemma read_row_short (row : list string) :
  (length row < 4)%nat -> ReadDocuments.read_row row = Py.Raised Py.IndexError.
Proof.
  destruct row as [|c [|b [|t [|x rest]]]]; cbn [length]; try lia; done.
Qed.

Lemma append_String (c : Ascii.ascii) (s1 s2 : string) :
  String c s1 +:+ s2 = String c (s1 +:+ s2).
Proof. reflexivity. Qed.

Lemma append_EmptyString_l (s : string) : EmptyString +:+ s = s.
Proof. reflexivity. Qed.

Lemma lstrip_trim (s : string) :
  starts_with_space (ReadDocuments.lstrip s) = false /\
  exists pre, s = pre +:+ ReadDocuments.lstrip s /\ all_space pre = true.
Proof.
  induction s as [|c s [IH1 (pre & IH2 & IH3)]]; cbn [ReadDocuments.lstrip].
  - split; [done|]. by exists EmptyString.
  - destruct (ReadDocuments.is_space c) eqn:Hc.
    + split; [done|]. exists (String c pre). cbn. rewrite Hc, IH3.
      split; [rewrite append_String; by f_equal|done].
    + split; [exact Hc|]. by exists EmptyString.
Qed.

Lemma rstrip_trim (s : string) :
  ends_with_space (ReadDocuments.rstrip s) = false /\
  (starts_with_space s = false -> starts_with_space (ReadDocuments.rstrip s) = false) /\
  exists suf, s = ReadDocuments.rstrip s +:+ suf /\ all_space suf = true.
Proof.
  induction s as [|c s (IH1 & _ & suf & IH2 & IH3)]; cbn [ReadDocuments.rstrip].
  - split; [done|]. split; [done|]. by exists EmptyString.
  - destruct (ReadDocuments.rstrip s) as [|a r] eqn:Hr.
    + rewrite append_EmptyString_l in IH2. subst suf.
      destruct (ReadDocuments.is_space c) eqn:Hc.
      * split; [done|]. split; [done|]. exists (String c s).
        split; [done|]. cbn [all_space]. by rewrite Hc, IH3.
      * split; [exact Hc|]. split; [done|]. exists s.
        split; [reflexivity|done].
    + split; [exact IH1|]. split; [done|]. exists suf.
      split; [|done]. rewrite append_String. by f_equal.
Qed.

Lemma strip_trimmed (raw : string) : trimmed_from raw (ReadDocuments.strip raw).
Proof.
  unfold ReadDocuments.strip, trimmed_from.
  destruct (lstrip_trim raw) as (Hl & pre & Hraw & Hpre).
  destruct (rstrip_trim (ReadDocuments.lstrip raw)) as (Hr & Hkeep & suf & Hs & Hsuf).
  split; [by apply Hkeep|]. split; [done|].
  exists pre, suf. split; [|done]. by rewrite <- Hs.
Qed.

(** X14. When every row after the first has at least four fields,
    [read_documents] returns one document per such row, in order: the
    document's content, category and title are the row's fields 3, 0 and 2
    without the white space at their two ends. The first row (the header)
    is never read, whatever it holds, and an input without any row gives
    no document and no error. *)
Theorem X14_read_documents_one_per_data_row (rows : list (list string)) :
  Forall (fun row => (4 <= length row)%nat) (drop 1 rows) ->
  exists docs : list ReadDocuments.document,
    ReadDocuments.read_documents rows = Py.Returned docs /\
    length docs = (length rows - 1)%nat /\
    forall (i : nat) (row : list string),
      drop 1 rows !! i = Some row ->
      exists (d : ReadDocuments.document) (c t x : string),
        docs !! i = Some d /\
        row !! 0%nat = Some c /\ row !! 2%nat = Some t /\ row !! 3%nat = Some x /\
        trimmed_from x (ReadDocuments.content d) /\
        trimmed_from c (ReadDocuments.category d) /\
        trimmed_from t (ReadDocuments.title d).
Proof.
  intros Hlong.
  set (g := fun row : list string =>
              {| ReadDocuments.content :=
                   ReadDocuments.strip (default EmptyString (row !! 3%nat));
                 ReadDocuments.category :=
                   ReadDocuments.strip (default EmptyString (row !! 0%nat));
                 ReadDocuments.title :=
                   ReadDocuments.strip (default EmptyString (row !! 2%nat)) |}).
  exists (g <$> drop 1 rows).
  rewrite Forall_forall in Hlong.
  split.
  { unfold ReadDocuments.read_documents. apply mapM_Returned.
    intros row Hrow. destruct (read_row_long row (Hlong row Hrow))
      as (c & t & x & H0 & H2 & H3).
    rewrite (read_row_Returned row c t x H0 H2 H3).
    unfold g. by rewrite H0, H2, H3. }
  split; [by rewrite length_fmap, length_drop|].
  intros i row Hi.
  assert (Hrow : row ∈ drop 1 rows) by (by eapply list_elem_of_lookup_2).
  destruct (read_row_long row (Hlong row Hrow)) as (c & t & x & H0 & H2 & H3).
  exists (g row), c, t, x.
  split; [by rewrite list_lookup_fmap, Hi|].
  split; [done|]. split; [done|]. split; [done|].
  unfold g. cbn [ReadDocuments.content ReadDocuments.category ReadDocuments.title].
  rewrite H0, H2, H3. cbn [default].
  split; [apply strip_trimmed|]. split; apply strip_trimmed.
Qed.

Lemma X14_witness :
  exists docs : list ReadDocuments.document,
    ReadDocuments.read_documents
      [ ["category"]; [" tech "; "f.txt"; "Apple rises "; "  Apple hired John  "] ]
    = Py.Returned docs /\
    length docs = 1%nat.
Proof.
  destruct (X14_read_documents_one_per_data_row
              [ ["category"];
                [" tech "; "f.txt"; "Apple rises "; "  Apple hired John  "] ])
    as (docs & Hd & Hl & _).
  - repeat constructor.
  - exists docs. split; [exact Hd | exact Hl].
Defined.

(** X15. [read_documents] fails, with an IndexError, exactly when some row
    after the first has fewer than four fields (an empty row included);
    then no document is returned at all. *)
Theorem X15_read_documents_short_row (rows : list (list string)) :
  ReadDocuments.read_documents rows = Py.Raised Py.IndexError
  <-> Exists (fun row => (length row < 4)%nat) (drop 1 rows).
Proof.
  unfold ReadDocuments.read_documents. split.
  - intros Hraised.
    destruct (decide (Exists (fun row : list string => (length row < 4)%nat)
                             (drop 1 rows))) as [|Hall]; [done|].
    apply not_Exists_Forall in Hall; [|apply _].
    assert (Hlong : Forall (fun row => (4 <= length row)%nat) (drop 1 rows)).
    { eapply Forall_impl; [exact Hall|]. intros row Hrow. simpl in Hrow. lia. }
    rewrite Forall_forall in Hlong.
    rewrite (mapM_Returned ReadDocuments.read_row
               (fun row => {| ReadDocuments.content :=
                                ReadDocuments.strip (default EmptyString (row !! 3%nat));
                              ReadDocuments.category :=
                                ReadDocuments.strip (default EmptyString (row !! 0%nat));
                              ReadDocuments.title :=
                                ReadDocuments.strip (default EmptyString (row !! 2%nat)) |}))
      in Hraised; [done|].
    intros row Hrow. destruct (read_row_long row (Hlong row Hrow))
      as (c & t & x & H0 & H2 & H3).
    rewrite (read_row_Returned row c t x H0 H2 H3). by rewrite H0, H2, H3.
  - intros Hex. apply mapM_outcome_Raised.
    + intros row _. destruct (decide (length row < 4)%nat) as [Hs|Hl].
      * right. by apply read_row_short.
      * left. destruct (read_row_long row ltac:(lia)) as (c & t & x & H0 & H2 & H3).
        eexists. by apply read_row_Returned.
    + eapply Exists_impl; [exact Hex|]. intros row Hrow. by apply read_row_short.
Qed.

(** * The message converters *)

Section ConverterFacts.
Context {bytes call_id arguments ChatMessage : Type}.
Context (b64encode : bytes -> string).
Context (role : ChatMessage -> Fmt.ChatRole).
Context (role_value : Fmt.ChatRole -> string).
Context (is_from : ChatMessage -> Fmt.ChatRole -> bool).
Context (_content : ChatMessage -> list (@Fmt.content_part bytes)).
Context (tool_calls : ChatMessage -> list (@Fmt.ToolCall call_id arguments)).
Context (tool_call_result_origin :
           ChatMessage -> option (@Fmt.ToolCall call_id arguments)).

Lemma anthropic_loop_supported (parts_in : list (@Fmt.content_part bytes))
    (parts : list string) :
  Forall (fun p => supported_by_anthropic p = true) parts_in ->
  Fmt.anthropic_loop b64encode parts_in parts
  = Fmt.Returned (parts ++ omap (anthropic_text b64encode) parts_in).
Proof.
  intros Hall. revert parts.
  induction Hall as [|p parts_in Hp Hall IH]; intros parts; cbn [Fmt.anthropic_loop].
  - by rewrite app_nil_r.
  - destruct p as [text|d|]; cbn [omap list_omap anthropic_text].
    + rewrite IH. by rewrite <- app_assoc.
    + cbn [supported_by_anthropic] in Hp. rewrite Hp, IH. by rewrite <- app_assoc.
    + apply IH.
Qed.

Lemma anthropic_loop_unsupported (pre rest : list (@Fmt.content_part bytes))
    (d : @Fmt.ByteStream bytes) (parts : list string) :
  Forall (fun p => supported_by_anthropic p = true) pre ->
  Fmt.startswith (Fmt.mime_type d) "image/" = false ->
  Fmt.anthropic_loop b64encode (pre ++ Fmt.MediaContent d :: rest) parts
  = Fmt.Raised (Fmt.ValueError
      ("Anthropic format does not support media type: " +:+ Fmt.mime_type d)).
Proof.
  intros Hall Hd. revert parts.
  induction Hall as [|p pre Hp Hall IH]; intros parts;
    cbn [app Fmt.anthropic_loop].
  - by rewrite Hd.
  - destruct p as [text|d'|]; [apply IH| |apply IH].
    cbn [supported_by_anthropic] in Hp. rewrite Hp. apply IH.
Qed.

Lemma anthropic_loop_Returned_inv (parts_in : list (@Fmt.content_part bytes))
    (parts out : list string) :
  Fmt.anthropic_loop b64encode parts_in parts = Fmt.Returned out ->
  Forall (fun p => supported_by_anthropic p = true) parts_in.
Proof.
  revert parts. induction parts_in as [|p parts_in IH]; intros parts;
    cbn [Fmt.anthropic_loop]; [constructor|].
  destruct p as [text|d|].
  - intros H. constructor; [done|]. by eapply IH.
  - destruct (Fmt.startswith (Fmt.mime_type d) "image/") eqn:Hd; [|done].
    intros H. constructor; [exact Hd|]. by eapply IH.
  - intros H. constructor; [done|]. by eapply IH.
Qed.

(** X16. [message_to_anthropic_format] returns a string exactly when the
    message is not a tool message, every media part is an image (its media
    type starts with image/), and the role is user, assistant or system; in
    every other case it raises. *)
Theorem X16_anthropic_returns_iff (message : ChatMessage) :
  (exists s : string,
     Fmt.message_to_anthropic_format b64encode role is_from _content message
     = Fmt.Returned s)
  <-> is_from message Fmt.TOOL = false /\
      Forall (fun p => supported_by_anthropic p = true) (_content message) /\
      (role message = Fmt.USER \/ role message = Fmt.ASSISTANT
       \/ role message = Fmt.SYSTEM).
Proof.
  unfold Fmt.message_to_anthropic_format. split.
  - intros [s Hs]. destruct (is_from message Fmt.TOOL); [done|].
    split; [done|].
    destruct (Fmt.anthropic_loop b64encode (_content message) []) as [out|e] eqn:Hl;
      [|done].
    split; [by eapply anthropic_loop_Returned_inv|].
    cbn [mbind Fmt.outcome_bind] in Hs.
    destruct (role message); cbn in Hs; try done; auto.
  - intros (-> & Hall & Hrole).
    rewrite (anthropic_loop_supported _ _ Hall). cbn [mbind Fmt.outcome_bind].
    destruct Hrole as [-> | [-> | ->]]; cbn; eauto.
Qed.

(** X17. For a message that is not a tool message, whose media parts are all
    images and whose role has the name [name] in the role map, the
    Anthropic format is the name, a colon and a space, then the parts one
    per line in their order: a text as it is, an image as its base64 data
    between the image tags; parts that are neither are left out. *)
Theorem X17_anthropic_format (message : ChatMessage) (name : string) :
  is_from message Fmt.TOOL = false ->
  Forall (fun p => supported_by_anthropic p = true) (_content message) ->
  Fmt.role_map (role message) = Fmt.Returned name ->
  Fmt.message_to_anthropic_format b64encode role is_from _content message
  = Fmt.Returned
      (name +:+ ": "
         +:+ Fmt.join Fmt.newline (omap (anthropic_text b64encode) (_content message))).
Proof.
  intros Htool Hall Hname. unfold Fmt.message_to_anthropic_format.
  rewrite Htool, (anthropic_loop_supported _ _ Hall).
  cbn [mbind Fmt.outcome_bind app]. by rewrite Hname.
Qed.

(** X18. For a message that is not a tool message, the first media part that
    is not an image makes [message_to_anthropic_format] raise a ValueError
    naming that part's media type, whatever follows it and whatever the
    role. *)
Theorem X18_anthropic_rejects_other_media (message : ChatMessage)
    (pre rest : list (@Fmt.content_part bytes)) (d : @Fmt.ByteStream bytes) :
  is_from message Fmt.TOOL = false ->
  _content message = pre ++ Fmt.MediaContent d :: rest ->
  Forall (fun p => supported_by_anthropic p = true) pre ->
  Fmt.startswith (Fmt.mime_type d) "image/" = false ->
  Fmt.message_to_anthropic_format b64encode role is_from _content message
  = Fmt.Raised (Fmt.ValueError
      ("Anthropic format does not support media type: " +:+ Fmt.mime_type d)).
Proof.
  intros Htool Hparts Hpre Hd. unfold Fmt.message_to_anthropic_format.
  by rewrite Htool, Hparts, (anthropic_loop_unsupported _ _ _ _ Hpre Hd).
Qed.

End ConverterFacts.

Section OpenAIFacts.
Context {bytes call_id arguments ChatMessage : Type}.
Context (b64encode : bytes -> string).
Context (role : ChatMessage -> Fmt.ChatRole).
Context (role_value : Fmt.ChatRole -> string).
Context (is_from : ChatMessage -> Fmt.ChatRole -> bool).
Context (_content : ChatMessage -> list (@Fmt.content_part bytes)).
Context (tool_calls : ChatMessage -> list (@Fmt.ToolCall call_id arguments)).
Context (tool_call_result_origin :
           ChatMessage -> option (@Fmt.ToolCall call_id arguments)).

Lemma openai_loop_no_early_return (message : ChatMessage)
    (parts : list (@Fmt.content_part bytes))
    (content : list (@Fmt.value call_id arguments)) :
  length (_content message) <> 1%nat
  \/ Forall (fun p => forall text, p <> Fmt.TextContent text) parts ->
  Fmt.openai_loop b64encode role role_value _content message parts content
  = inr (content ++ omap (openai_item b64encode) parts).
Proof.
  revert content. induction parts as [|p parts IH]; intros content Hno;
    cbn [Fmt.openai_loop omap list_omap].
  - by rewrite app_nil_r.
  - assert (Hno' : length (_content message) <> 1%nat
                   \/ Forall (fun p => forall text, p <> Fmt.TextContent text) parts).
    { destruct Hno as [?|Hall]; [by left|right]. by inversion Hall. }
    destruct p as [text|d|]; cbn [openai_item].
    + destruct Hno as [Hlen|Hall].
      * rewrite bool_decide_eq_false_2 by done.
        rewrite (IH _ Hno'). by rewrite <- app_assoc.
      * inversion Hall as [|? ? Hp _]; subst. by destruct (Hp text).
    + rewrite (IH _ Hno'). by rewrite <- app_assoc.
    + apply (IH _ Hno').
Qed.

(** X19. For a message whose content is one text part and nothing else,
    [message_to_openai_format] returns the dict of the role and the text as
    a plain string under content, and no other key: tool calls and a tool
    call id are never added to it. *)
Theorem X19_openai_single_text (message : ChatMessage) (text : string) :
  _content message = [Fmt.TextContent text] ->
  Fmt.message_to_openai_format b64encode role role_value is_from _content
    tool_calls tool_call_result_origin message
  = Fmt.Returned (Fmt.Dict [("role", Fmt.Str (role_value (role message)));
                            ("content", Fmt.Str text)]).
Proof.
  intros Hc. unfold Fmt.message_to_openai_format. rewrite Hc.
  cbn [Fmt.openai_loop]. rewrite Hc. reflexivity.
Qed.

(** X20. For a message that is not a tool message and whose content is not
    a single text part, [message_to_openai_format] returns a dict with the
    role; its content entry is the list of the text and media parts'
    items in order, parts that are neither being left out, and there is
    no content entry when that list is empty; it has a tool_calls entry
    exactly when the message is from the assistant and has tool calls, and
    no tool_call_id. *)
Theorem X20_openai_content_list (message : ChatMessage) :
  (forall text, _content message <> [Fmt.TextContent text]) ->
  is_from message Fmt.TOOL = false ->
  exists items : list (string * @Fmt.value call_id arguments),
    Fmt.message_to_openai_format b64encode role role_value is_from _content
      tool_calls tool_call_result_origin message
    = Fmt.Returned (Fmt.Dict items) /\
    dict_get "role" items = Some (Fmt.Str (role_value (role message))) /\
    dict_get "content" items
    = match omap (openai_item b64encode) (_content message) with
      | [] => None
      | content => Some (Fmt.List content)
      end /\
    (is_Some (dict_get "tool_calls" items)
     <-> is_from message Fmt.ASSISTANT = true /\ tool_calls message <> []) /\
    dict_get "tool_call_id" items = None.
Proof.
  intros Hnot Htool. unfold Fmt.message_to_openai_format.
  rewrite openai_loop_no_early_return.
  2:{ destruct (_content message) as [|p [|q l]] eqn:Hc; cbn [length];
        [by left| |by left].
      right. constructor; [|constructor].
      intros text ->. by apply (Hnot text). }
  rewrite Htool. cbn [app].
  destruct (omap (openai_item b64encode) (_content message)) as [|c content];
    destruct (is_from message Fmt.ASSISTANT);
    destruct (tool_calls message) as [|call calls];
    cbn [andb negb length app map];
    repeat case_bool_decide; try done;
    cbn [andb negb length app map];
    (eexists; split; [reflexivity|]);
    (split; [reflexivity|]); (split; [reflexivity|]); (split; [|reflexivity]);
    (split; [intros Hs | intros [Ha Hc]]); try done;
    try (by destruct Hs as [? [=]]); try (by eexists).
Qed.

End OpenAIFacts.

(** The converters on sample messages: a message is given here as its role
    and its parts, the bytes of a stream stand for their own base64 text, and
    there are no tool calls. *)
Lemma X17_witness :
  Fmt.message_to_anthropic_format (fun s : string => s) fst
    (fun m r => bool_decide (m.1 = r)) snd
    (Fmt.USER, [Fmt.TextContent "Hello"; Fmt.OtherContent;
                Fmt.MediaContent {| Fmt.data := "QUJD"; Fmt.mime_type := "image/png" |}])
  = Fmt.Returned ("Human: Hello" +:+ Fmt.newline +:+ "<image>QUJD</image>").
Proof.
  apply (X17_anthropic_format (fun s : string => s) fst
           (fun m r => bool_decide (m.1 = r)) snd
           (Fmt.USER, [Fmt.TextContent "Hello"; Fmt.OtherContent;
                       Fmt.MediaContent {| Fmt.data := "QUJD";
                                           Fmt.mime_type := "image/png" |}])
           "Human").
  - reflexivity.
  - repeat constructor.
  - reflexivity.
Defined.

Lemma X18_witness :
  Fmt.message_to_anthropic_format (fun s : string => s) fst
    (fun m r => bool_decide (m.1 = r)) snd
    (Fmt.OTHER, [Fmt.TextContent "Hello";
                 Fmt.MediaContent {| Fmt.data := "QUJD";
                                     Fmt.mime_type := "application/pdf" |};
                 Fmt.TextContent "World"])
  = Fmt.Raised (Fmt.ValueError
      "Anthropic format does not support media type: application/pdf").
Proof.
  apply (X18_anthropic_rejects_other_media (fun s : string => s) fst
           (fun m r => bool_decide (m.1 = r)) snd
           (Fmt.OTHER, [Fmt.TextContent "Hello";
                        Fmt.MediaContent {| Fmt.data := "QUJD";
                                            Fmt.mime_type := "application/pdf" |};
                        Fmt.TextContent "World"])
           [Fmt.TextContent "Hello"] [Fmt.TextContent "World"]
           {| Fmt.data := "QUJD"; Fmt.mime_type := "application/pdf" |}).
  - reflexivity.
  - reflexivity.
  - repeat constructor.
  - reflexivity.
Defined.

Lemma X19_witness :
  Fmt.message_to_openai_format (call_id := nat) (arguments := unit)
    (fun s : string => s) fst
    (fun r => match r with Fmt.ASSISTANT => "assistant" | _ => "user" end)
    (fun m r => bool_decide (m.1 = r)) snd
    (fun _ => [ {| Fmt.tool_call_id := 7%nat; Fmt.tool_name := "search";
                   Fmt.tool_arguments := tt |} ])
    (fun _ => None)
    (Fmt.ASSISTANT, [Fmt.TextContent "Hello"])
  = Fmt.Returned (Fmt.Dict [("role", Fmt.Str "assistant");
                            ("content", Fmt.Str "Hello")]).
Proof.
  apply (X19_openai_single_text (call_id := nat) (arguments := unit)
           (fun s : string => s) fst
           (fun r => match r with Fmt.ASSISTANT => "assistant" | _ => "user" end)
           (fun m r => bool_decide (m.1 = r)) snd
           (fun _ => [ {| Fmt.tool_call_id := 7%nat; Fmt.tool_name := "search";
                          Fmt.tool_arguments := tt |} ])
           (fun _ => None)
           (Fmt.ASSISTANT, [Fmt.TextContent "Hello"]) "Hello").
  reflexivity.
Defined.

Lemma X20_witness :
  exists items : list (string * @Fmt.value nat unit),
    Fmt.message_to_openai_format (fun s : string => s) fst
      (fun r => match r with Fmt.ASSISTANT => "assistant" | _ => "user" end)
      (fun m r => bool_decide (m.1 = r)) snd
      (fun _ => []) (fun _ => None)
      (Fmt.USER, [Fmt.TextContent "Look";
                  Fmt.MediaContent {| Fmt.data := "QUJD";
                                      Fmt.mime_type := "application/pdf" |}])
    = Fmt.Returned (Fmt.Dict items) /\
    dict_get "content" items
    = Some (Fmt.List
              [Fmt.Dict [("type", Fmt.Str "text"); ("text", Fmt.Str "Look")];
               Fmt.Dict [("type", Fmt.Str "file");
                         ("media_type", Fmt.Str "application/pdf");
                         ("data", Fmt.Str "QUJD")]]).
Proof.
  destruct (X20_openai_content_list (call_id := nat) (arguments := unit)
              (fun s : string => s) fst
              (fun r => match r with Fmt.ASSISTANT => "assistant" | _ => "user" end)
              (fun m r => bool_decide (m.1 = r)) snd
              (fun _ => []) (fun _ => None)
              (Fmt.USER, [Fmt.TextContent "Look";
                          Fmt.MediaContent {| Fmt.data := "QUJD";
                                              Fmt.mime_type := "application/pdf" |}]))
    as (items & Hr & _ & Hc & _).
  - intros text. discriminate.
  - reflexivity.
  - exists items. split; [exact Hr | exact Hc].
Defined.
